(** * threaded_mc/common_mc.c: the shared part of the Monte Carlo driver

    A shallow embedding of [common_mc.c] and the properties of it that the
    specification states.  The C code computes with [double], [long] and
    [int]; the embedding keeps the three apart:

    - [double] arithmetic is an interface ([Arith]) with two instances: IEEE
      binary64 (Rocq's primitive floats, the arithmetic the program runs
      with) and exact rational arithmetic (the idealisation the specification
      appeals to when it says "exact arithmetic");
    - [long] and [int] are [Z] with the two's complement wrap-around written
      out where the code can overflow;
    - the [mc_result_t] objects that the functions receive by pointer live in
      a store, so that aliasing of the two arguments of [mc_result_update]
      is part of the model. *)

From Stdlib Require Import ZArith Lia Floats QArith Qcanon String Ascii DecimalString.
From Stdlib Require Uint63.
From Equations Require Import Equations.
From stdpp Require Import base option list gmap.

Local Open Scope Z_scope.

(** ** Machine integers *)

Module Machine.

Definition INT_MAX : Z := 2 ^ 31 - 1.
Definition LONG_MIN : Z := - 2 ^ 63.
Definition LONG_MAX : Z := 2 ^ 63 - 1.

(** The value a 64-bit two's complement register holds after an operation
    whose mathematical result is [z] (what [long] arithmetic does on the
    LP64 targets of the program; ISO C leaves signed overflow undefined). *)
Definition long_wrap (z : Z) : Z := (z + 2 ^ 63) mod 2 ^ 64 - 2 ^ 63.

Definition in_long (z : Z) : Prop := LONG_MIN <= z <= LONG_MAX.

Definition long_add (a b : Z) : Z := long_wrap (a + b).

End Machine.
Export Machine.

(** ** The arithmetic of [double] *)

(** What the program asks of [double]: the four operations, the comparison
    [<], the conversion of an integer ([long] or [int]) and the literal
    [1e-4] of [mc_param_init]. *)
Class Arith (D : Type) : Type := {
  add : D → D → D;
  sub : D → D → D;
  mul : D → D → D;
  div : D → D → D;
  ltb : D → D → bool;
  of_long : Z → D;
  lit_1em4 : D;
}.

(** IEEE 754 binary64 with round-to-nearest-even, each operation rounded on
    its own (no fused multiply-add, no wider intermediate precision).  An
    integer is converted by rounding it to the nearest representable
    value. *)
#[export] Instance binary64 : Arith float := {|
  add := PrimFloat.add;
  sub := PrimFloat.sub;
  mul := PrimFloat.mul;
  div := PrimFloat.div;
  ltb := PrimFloat.ltb;
  of_long := λ z, SF2Prim (binary_normalize prec emax z 0 false);
  lit_1em4 := 0x1.a36e2eb1c432dp-14%float;
|}.

Definition Qc_ltb (x y : Qc) : bool :=
  match (x ?= y)%Qc with Lt => true | _ => false end.

(** Exact arithmetic over the rationals.  Division by zero yields zero here
    ([Qcinv 0 = 0]); no statement below relies on it. *)
#[export] Instance exact : Arith Qc := {|
  add := Qcplus;
  sub := Qcminus;
  mul := Qcmult;
  div := Qcdiv;
  ltb := Qc_ltb;
  of_long := λ z, Q2Qc (inject_Z z);
  lit_1em4 := Q2Qc (1 # 10000);
|}.

(** ** Data *)

(** Modelled from the spec: the declarations of [mc_param_t] and
    [mc_result_t] are in [common_mc.h], which is not among the sources.  The
    fields are the ones [common_mc.c] reads and writes, with the types its
    locals and [printf] formats give them ([double rtol], [long maxtrials],
    [int nbatch], [int verbose]; [double sum_X], [double sum_X2],
    [long ntrials]); they are the spec's Parameters and Partial/SharedResult. *)
Record mc_param_t (D : Type) : Type := Build_mc_param {
  verbose : Z;
  rtol : D;
  maxtrials : Z;
  nbatch : Z;
}.
Arguments Build_mc_param {D} _ _ _ _.
Arguments verbose {D} _.
Arguments rtol {D} _.
Arguments maxtrials {D} _.
Arguments nbatch {D} _.

Record mc_result_t (D : Type) : Type := Build_mc_result {
  sum_X : D;
  sum_X2 : D;
  ntrials : Z;
}.
Arguments Build_mc_result {D} _ _ _.
Arguments sum_X {D} _.
Arguments sum_X2 {D} _.
Arguments ntrials {D} _.

Definition set_sum_X {D} (v : D) (r : mc_result_t D) : mc_result_t D :=
  Build_mc_result v (sum_X2 r) (ntrials r).
Definition set_sum_X2 {D} (v : D) (r : mc_result_t D) : mc_result_t D :=
  Build_mc_result (sum_X r) v (ntrials r).
Definition set_ntrials {D} (v : Z) (r : mc_result_t D) : mc_result_t D :=
  Build_mc_result (sum_X r) (sum_X2 r) v.

(** ** The store of [mc_result_t] objects *)

(** A pointer to an [mc_result_t] is an address; the store maps the
    addresses of the live objects to their contents. *)
Definition loc : Type := positive.

(** A computation over the store: it fails ([None]) when it dereferences an
    address that holds no object, and otherwise returns a value and the
    store it leaves. *)
Definition M (D A : Type) : Type :=
  gmap loc (mc_result_t D) → option (A * gmap loc (mc_result_t D)).

#[export] Instance M_ret {D} : MRet (M D) := λ A a h, Some (a, h).
#[export] Instance M_bind {D} : MBind (M D) := λ A B f m h,
  match m h with
  | Some (a, h') => f a h'
  | None => None
  end.

(** [p->f] as an rvalue. *)
Definition read {D A} (p : loc) (f : mc_result_t D → A) : M D A := λ h,
  match h !! p with
  | Some r => Some (f r, h)
  | None => None
  end.

(** [p->f = v], as the update [set] of the object at [p]. *)
Definition write {D} (p : loc) (set : mc_result_t D → mc_result_t D) : M D unit := λ h,
  match h !! p with
  | Some r => Some ((), <[p := set r]> h)
  | None => None
  end.

(** The store a computation leaves. *)
Definition exec {D A} (m : M D A) (h : gmap loc (mc_result_t D)) :
    option (gmap loc (mc_result_t D)) :=
  snd <$> m h.

Section Core.

Context {D : Type} `{Arith D}.

Definition zero : D := of_long 0.

(** [mc_param_init]: all four fields of [*param] are assigned. *)
Definition mc_param_init (param : mc_param_t D) : mc_param_t D :=
  Build_mc_param 1 lit_1em4 10000000 5000.

(** [mc_result_init]: three assignments through [result]. *)
Definition mc_result_init (result : loc) : M D unit :=
  write result (set_sum_X zero);;
  write result (set_sum_X2 zero);;
  write result (set_ntrials 0).

(** [mc_result_update]: three compound assignments, each reading both
    objects at the time it runs. *)
Definition mc_result_update (result batch : loc) : M D unit :=
  (a ← read result sum_X; b ← read batch sum_X;
   write result (set_sum_X (add a b)));;
  (a ← read result sum_X2; b ← read batch sum_X2;
   write result (set_sum_X2 (add a b)));;
  (a ← read result ntrials; b ← read batch ntrials;
   write result (set_ntrials (long_add a b))).

(** The divisions [is_converged] evaluates, in program order, each as
    (dividend, divisor): lines 82, 83, 85 and 87. *)
Definition is_converged_divisions (param : mc_param_t D) (result : mc_result_t D) :
    list (D * D) :=
  let ntrials := of_long (ntrials result) in
  let EX := div (sum_X result) ntrials in
  let EX2 := div (sum_X2 result) ntrials in
  let varX := sub EX2 (mul EX EX) in
  let varEst := div varX ntrials in
  [(sum_X result, ntrials); (sum_X2 result, ntrials); (varX, ntrials);
   (varEst, mul EX EX)].

(** [is_converged].  Both arguments are only read, so the model takes the
    objects they point to.  [ntrials] is converted to [double] on entry and
    [maxtrials] at the comparison; [||] yields the [int] 1 or 0. *)
Definition is_converged (param : mc_param_t D) (result : mc_result_t D) : Z :=
  let rtol := rtol param in
  let maxtrials := maxtrials param in
  let ntrials := of_long (ntrials result) in
  let EX := div (sum_X result) ntrials in
  let EX2 := div (sum_X2 result) ntrials in
  let varX := sub EX2 (mul EX EX) in
  let varEst := div varX ntrials in
  if ltb (div varEst (mul EX EX)) (mul rtol rtol) then 1
  else if ltb (of_long maxtrials) ntrials then 1
  else 0.

End Core.

(** ** Running trials *)

Section Trials.

Context {D : Type} `{Arith D}.

(** Modelled from the spec: the generator ([struct mt19937p], [genrand]) is
    in [mt19937p.c], which is not among the sources.  It is a parameter: a
    state type and a step that returns the value drawn and the next state
    ("advances internal state by exactly one step and returns one
    pseudorandom value"). *)
Context {MT : Type} (genrand : MT → D * MT).

(** [run_trial]: one draw. *)
Definition run_trial (mt : MT) : D * MT :=
  let X : D := zero in
  let '(X, mt) := genrand mt in
  (X, mt).

(** The [for] loop of [run_trials], entered with the current [t] and
    accumulators.  [t] stays below [nbatch], so [++t] cannot overflow. *)
Equations? run_trials_loop (nbatch t : Z) (mt : MT) (sum_X sum_X2 : D) : MT * D * D
  by wf (Z.to_nat (nbatch - t)) lt :=
  run_trials_loop nbatch t mt sum_X sum_X2 with Z_lt_dec t nbatch => {
    | left _ :=
        run_trials_loop nbatch (t + 1) (snd (run_trial mt))
          (add sum_X (fst (run_trial mt)))
          (add sum_X2 (mul (fst (run_trial mt)) (fst (run_trial mt))));
    | right _ := (mt, sum_X, sum_X2) }.
Proof. lia. Qed.

(** [run_trials]: returns the generator state it leaves; the three fields
    of [*result] are assigned after the loop. *)
Definition run_trials (mt : MT) (nbatch : Z) (result : loc) : M D MT :=
  let '(mt, sum_X, sum_X2) := run_trials_loop nbatch 0 mt zero zero in
  write result (set_sum_X sum_X);;
  write result (set_sum_X2 sum_X2);;
  write result (set_ntrials nbatch);;
  mret mt.

(** The first [n] values of the stream that starts in state [mt], and the
    state after them. *)
Fixpoint draws (n : nat) (mt : MT) : list D * MT :=
  match n with
  | O => ([], mt)
  | S n' =>
      let '(X, mt') := genrand mt in
      let '(Xs, mt'') := draws n' mt' in
      (X :: Xs, mt'')
  end.

End Trials.

(** ** Command line *)

(** One return of [getopt(argc, argv, "p:t:n:b:v:")]: the value returned and
    the globals [optarg] and [optopt] as the call leaves them.  [getopt] is
    the C library's; the model takes the sequence of its returns as given. *)
Record getopt_ret : Type := Build_getopt_ret {
  opt_c : Z;
  optarg : string;
  optopt : Z;
}.

(** How [process_args] ends: it returns [nthreads] with [*param] filled in,
    or calls [exit(status)] after writing [stderr]. *)
Inductive outcome (D : Type) : Type :=
| Returned (nthreads : Z) (param : mc_param_t D)
| Exited (status : Z) (stderr : string).
Arguments Returned {D} _ _.
Arguments Exited {D} _ _.

Definition chr (a : ascii) : Z := Z.of_N (N_of_ascii a).

Definition nl : string := String "010" EmptyString.

(** [printf]'s [%d] and [%c]. *)
Definition fmt_d (z : Z) : string := NilZero.string_of_int (Z.to_int z).
Definition fmt_c (z : Z) : string := String (ascii_of_N (Z.to_N z)) EmptyString.

Definition msg_nthreads (max : Z) : string :=
  ("nthreads must be in [1," ++ fmt_d max ++ "]" ++ nl)%string.
Definition msg_rtol : string := ("rtol must be positive" ++ nl)%string.
Definition msg_maxtrials : string := ("maxtrials must be positive" ++ nl)%string.
Definition msg_nbatch : string := ("nbatch must be positive" ++ nl)%string.
Definition msg_requires (optopt : Z) : string :=
  ("Option -" ++ fmt_c optopt ++ " requires argument" ++ nl)%string.
Definition msg_unknown (optopt : Z) : string :=
  ("Unknown option '-" ++ fmt_c optopt ++ "'." ++ nl)%string.
Definition msg_nonoption : string := ("No non-option arguments allowed" ++ nl)%string.

Section CommandLine.

Context {D : Type} `{Arith D}.

(** The C library's conversions and the macro of [common_mc.h] (not among
    the sources) are parameters. *)
Context (atoi atol : string → Z) (atof : string → D) (MAX_MC_THREADS : Z).

(** The body of the [switch] for one return [g] of [getopt]: the new
    [nthreads] and [*param], or the text written before [exit(-1)]. *)
Definition process_opt (g : getopt_ret) (nthreads : Z) (param : mc_param_t D) :
    (Z * mc_param_t D) + string :=
  let c := opt_c g in
  if c =? chr "p" then
    let nthreads := atoi (optarg g) in
    if (nthreads <=? 0) || (MAX_MC_THREADS <? nthreads)
    then inr (msg_nthreads MAX_MC_THREADS)
    else inl (nthreads, param)
  else if c =? chr "t" then
    let param := Build_mc_param (verbose param) (atof (optarg g))
                   (maxtrials param) (nbatch param) in
    if ltb (rtol param) zero
    then inr msg_rtol
    else inl (nthreads, param)
  else if c =? chr "n" then
    let param := Build_mc_param (verbose param) (rtol param)
                   (atol (optarg g)) (nbatch param) in
    if maxtrials param <? 1
    then inr msg_maxtrials
    else inl (nthreads, param)
  else if c =? chr "b" then
    let param := Build_mc_param (verbose param) (rtol param)
                   (maxtrials param) (atoi (optarg g)) in
    if nbatch param <? 1
    then inr msg_nbatch
    else inl (nthreads, param)
  else if c =? chr "v" then
    inl (nthreads, Build_mc_param (atoi (optarg g)) (rtol param)
                     (maxtrials param) (nbatch param))
  else if c =? chr "?" then
    let o := optopt g in
    if (o =? chr "p") || (o =? chr "t") || (o =? chr "n") || (o =? chr "b")
       || (o =? chr "v")
    then inr (msg_requires o)
    else inr (msg_unknown o)
  else inl (nthreads, param).

(** The [while] loop over the returns of [getopt]: [calls] are the returns
    in order; once they are used up [getopt] returns -1. *)
Fixpoint getopt_loop (calls : list getopt_ret) (nthreads : Z) (param : mc_param_t D) :
    (Z * mc_param_t D) + string :=
  match calls with
  | [] => inl (nthreads, param)
  | g :: calls' =>
      if opt_c g =? -1 then inl (nthreads, param)
      else
        match process_opt g nthreads param with
        | inl (nthreads', param') => getopt_loop calls' nthreads' param'
        | inr err => inr err
        end
  end.

(** [process_args].  [optind] is the global as the last call of [getopt]
    leaves it. *)
Definition process_args (calls : list getopt_ret) (optind argc : Z)
    (param : mc_param_t D) : outcome D :=
  let nthreads := 0 in
  match getopt_loop calls nthreads (mc_param_init param) with
  | inr err => Exited (-1) err
  | inl (nthreads, param) =>
      if optind <? argc then Exited (-1) msg_nonoption
      else Returned nthreads param
  end.

End CommandLine.

(** ** Reporting *)

(** A call of [printf]: the format and the arguments passed for its
    conversions, each with the type it has at the call.  The formatting
    itself is the C library's. *)
Inductive printf_arg : Type :=
| Arg_double (x : float)
| Arg_long (z : Z).

Record printf_call : Type := Build_printf_call {
  printf_format : string;
  printf_args : list printf_arg;
}.

(** [print_results]: the mean, the standard error and the count passed to
    one call of [printf].  [ntrials] is a [long] here and is converted at
    each division; [sqrt] is the correctly rounded square root of
    IEEE 754. *)
Definition print_results (result : mc_result_t float) : printf_call :=
  let ntrials := ntrials result in
  let EX := div (sum_X result) (of_long ntrials) in
  let EX2 := div (sum_X2 result) (of_long ntrials) in
  let stdX := PrimFloat.sqrt (div (sub EX2 (mul EX EX)) (of_long ntrials)) in
  Build_printf_call ("%g (%g) from %ld trials" ++ nl)%string
    [Arg_double EX; Arg_double stdX; Arg_long ntrials].

(** ** Derived notions used in the statements *)

Section Notions.

Context {D : Type} `{Arith D}.

(** The convergence test in the spec's words (section 4.5): with
    [n = shared.count], [mean = shared.sum / n],
    [mean_sq = shared.sum_sq / n], [var = mean_sq - mean^2] and
    [var_of_mean = var / n], converged when
    [var_of_mean / mean^2 < tolerance^2] or [n > max_trials].  The count
    enters the quotients as a [double]; [n > max_trials] compares the count
    with the budget, two integers. *)
Definition spec_mean (shared : mc_result_t D) : D :=
  div (sum_X shared) (of_long (ntrials shared)).

Definition spec_var (shared : mc_result_t D) : D :=
  sub (div (sum_X2 shared) (of_long (ntrials shared)))
      (mul (spec_mean shared) (spec_mean shared)).

Definition spec_converged (params : mc_param_t D) (shared : mc_result_t D) : bool :=
  let n := of_long (ntrials shared) in
  let mean := spec_mean shared in
  let var_of_mean := div (spec_var shared) n in
  ltb (div var_of_mean (mul mean mean)) (mul (rtol params) (rtol params))
  || (maxtrials params <? ntrials shared).

(** A run of merges: [mc_result_update(result, b)] for each [b] of
    [batches], in order. *)
Fixpoint merges (result : loc) (batches : list loc) : M D unit :=
  match batches with
  | [] => mret ()
  | b :: batches' => mc_result_update result b;; merges result batches'
  end.

(** The sum of a list of [double]s, accumulated from the left from 0 as
    the program accumulates. *)
Definition sum_D (xs : list D) : D := fold_left add xs zero.

Definition sum_Z (zs : list Z) : Z := fold_right Z.add 0 zs.

(** The element-wise sum of a list of partial results. *)
Definition total (batches : list (mc_result_t D)) : mc_result_t D :=
  Build_mc_result (sum_D (sum_X <$> batches)) (sum_D (sum_X2 <$> batches))
                  (sum_Z (ntrials <$> batches)).

(** One merge on values: what [mc_result_update] leaves in [*result] when
    the two pointers are distinct. *)
Definition merged (r b : mc_result_t D) : mc_result_t D :=
  Build_mc_result (add (sum_X r) (sum_X b)) (add (sum_X2 r) (sum_X2 b))
                  (long_add (ntrials r) (ntrials b)).

(** A stand-in generator (a linear congruential one over [Z] states) for
    running the model on concrete streams. *)
Definition lcg (s : Z) : D * Z :=
  (div (of_long s) (of_long (2 ^ 31)), (1103515245 * s + 12345) mod 2 ^ 31).

End Notions.

(** Stand-ins for [atoi]/[atol] (an optional minus sign and decimal digits)
    and for [atof] (on integer numerals), for running [process_args] on
    concrete command lines. *)
Fixpoint digits_val (s : string) (acc : Z) : Z :=
  match s with
  | String c s' =>
      let n := Z.of_N (N_of_ascii c) - 48 in
      if (0 <=? n) && (n <=? 9) then digits_val s' (10 * acc + n) else acc
  | EmptyString => acc
  end.

Definition atoi_dec (s : string) : Z :=
  match s with
  | String "-" s' => - digits_val s' 0
  | _ => digits_val s 0
  end.

Definition atof_int {D} `{Arith D} (s : string) : D := of_long (atoi_dec s).

(** The return of [getopt] for option [-c arg]. *)
Definition opt (c : ascii) (arg : string) : getopt_ret :=
  Build_getopt_ret (chr c) arg 0.

(** ** Notions used in the statements about the store *)

(** [batch] points to an object other than [*result], which holds [v]. *)
Definition batch_is {D} (h : gmap loc (mc_result_t D)) (result batch : loc)
    (v : mc_result_t D) : Prop :=
  batch ≠ result ∧ h !! batch = Some v.

(** ** Notions used in the statements about binary64 *)

(** Classes of binary64 values, read off the specification-level view
    [Prim2SF] of a float: not below zero (NaN included, since [NaN < 0] is
    false); sign bit clear or NaN; strictly positive; a zero of either sign;
    NaN or an infinity. *)
Definition sf_nonneg (x : spec_float) : Prop :=
  match x with
  | S754_nan | S754_zero _ => True
  | S754_infinity s | S754_finite s _ _ => s = false
  end.

Definition sf_positive_sign (x : spec_float) : Prop :=
  match x with
  | S754_nan => True
  | S754_zero s | S754_infinity s | S754_finite s _ _ => s = false
  end.

Definition sf_positive (x : spec_float) : Prop :=
  match x with
  | S754_infinity s | S754_finite s _ _ => s = false
  | _ => False
  end.

Definition sf_is_zero (x : spec_float) : Prop :=
  match x with
  | S754_zero _ => True
  | _ => False
  end.

Definition sf_not_finite (x : spec_float) : Prop :=
  match x with
  | S754_nan | S754_infinity _ => True
  | _ => False
  end.

(** The rank of a shift record: records compare by mantissa, then round
    bit, then sticky bit. *)
Definition shr_code (x : shr_record) : Z :=
  4 * shr_m x + 2 * Z.b2z (shr_r x) + Z.b2z (shr_s x).

(** The mantissa that an integer [p] of more than 53 binary digits is
    rounded to: [p] shifted right to 53 digits, then rounded to nearest
    even on the bits shifted out. *)
Definition rounded_mantissa (p : positive) : Z :=
  let x := SpecFloat.iter_pos shr_1 (Z.to_pos (Z.log2 (Z.pos p) - 52))
             (Build_shr_record (Z.pos p) false false) in
  round_nearest_even (shr_m x) (loc_of_shr_record x).

(** One of the divisions [is_converged] evaluates has a divisor equal to
    zero ([d == 0] in C). *)
Definition divides_by_zero (param : mc_param_t float) (result : mc_result_t float) : Prop :=
  Exists (λ nd, PrimFloat.eqb nd.2 PrimFloat.zero = true)
         (is_converged_divisions param result).


(** ** Notions used in the statements about the command line *)

(** The argument of the last return of [getopt] for option [c], if any. *)
Fixpoint last_optarg (c : Z) (calls : list getopt_ret) : option string :=
  match calls with
  | [] => None
  | g :: calls' =>
      match last_optarg c calls' with
      | Some arg => Some arg
      | None => if opt_c g =? c then Some (optarg g) else None
      end
  end.

Section Refusals.

Context {D : Type} `{Arith D}.
Context (atoi atol : string → Z) (atof : string → D) (MAX_MC_THREADS : Z).

(** The return [g] of [getopt] fails the check of its [case], which writes
    [err]: a thread count outside [1, MAX_MC_THREADS], a tolerance below
    zero, a budget or a batch size below 1, or the ['?'] that [getopt]
    returns for an unknown option or a missing argument. *)
Definition refused (g : getopt_ret) (err : string) : Prop :=
  (opt_c g = chr "p"
   ∧ (atoi (optarg g) <= 0 ∨ MAX_MC_THREADS < atoi (optarg g))
   ∧ err = msg_nthreads MAX_MC_THREADS)
  ∨ (opt_c g = chr "t" ∧ ltb (atof (optarg g)) zero = true ∧ err = msg_rtol)
  ∨ (opt_c g = chr "n" ∧ atol (optarg g) < 1 ∧ err = msg_maxtrials)
  ∨ (opt_c g = chr "b" ∧ atoi (optarg g) < 1 ∧ err = msg_nbatch)
  ∨ (opt_c g = chr "?"
     ∧ err = if (optopt g =? chr "p") || (optopt g =? chr "t")
                || (optopt g =? chr "n") || (optopt g =? chr "b")
                || (optopt g =? chr "v")
             then msg_requires (optopt g) else msg_unknown (optopt g)).

(** The parameters and the thread count pass the checks of
    [process_args]. *)
Definition valid_args (nthreads : Z) (param : mc_param_t D) : Prop :=
  (nthreads = 0 ∨ 1 <= nthreads <= MAX_MC_THREADS)
  ∧ ltb (rtol param) zero = false
  ∧ 1 <= maxtrials param
  ∧ 1 <= nbatch param.

End Refusals.

(** ** A round of a worker *)

(** A batch of trials into [*batch], then its merge into [*result]:
    [run_trials(mt, nbatch, batch)] followed by
    [mc_result_update(result, batch)]. *)
Definition batch_round {D} `{Arith D} {MT : Type} (genrand : MT → D * MT)
    (result batch : loc) (mt : MT) (nbatch : Z) : M D MT :=
  mt' ← run_trials genrand mt nbatch batch;
  mc_result_update result batch;;
  mret mt'.

(** The partial result of the trials whose values are [Xs], with the count
    [n] that [run_trials] stores. *)
Definition batch_of {D} `{Arith D} (Xs : list D) (n : Z) : mc_result_t D :=
  Build_mc_result (sum_D Xs) (sum_D ((λ X, mul X X) <$> Xs)) n.

(** A parameter block with the tolerance replaced. *)
Definition with_rtol {D} (r : D) (param : mc_param_t D) : mc_param_t D :=
  Build_mc_param (verbose param) r (maxtrials param) (nbatch param).

(** A parameter block with the budget replaced. *)
Definition with_maxtrials {D} (m : Z) (param : mc_param_t D) : mc_param_t D :=
  Build_mc_param (verbose param) (rtol param) m (nbatch param).

(** ** Sample data *)

(** The parameters [mc_param_init] sets, and the same with a tolerance of
    zero. *)
Definition param_default : mc_param_t float :=
  Build_mc_param 1 0x1.a36e2eb1c432dp-14%float 10000000 5000.

Definition param_rtol_zero : mc_param_t float :=
  Build_mc_param 1 0%float 10000000 5000.

(** Four trials that sum to zero (values 1, -1, 0, 0), and four trials with
    values 0.5, 0.5, 0.25, 0.75. *)
Definition result_zero_mean : mc_result_t float := Build_mc_result 0%float 2%float 4.

Definition result_half_mean : mc_result_t float :=
  Build_mc_result 2%float 1.125%float 4.

(** Four trials of value 0.5. *)
Definition result_constant : mc_result_t float := Build_mc_result 2%float 1%float 4.

(** A store with the shared result at address 1 and two batches at 2 and 3,
    in binary64 and in exact arithmetic. *)
Definition demo_store : gmap loc (mc_result_t float) :=
  {[ 1%positive := Build_mc_result 7%float 7%float 7;
     2%positive := Build_mc_result 0.5%float 0.25%float 1;
     3%positive := Build_mc_result 1.5%float 1.25%float 2 ]}.

Definition demo_store_exact : gmap loc (mc_result_t Qc) :=
  {[ 1%positive := Build_mc_result (Q2Qc 7) (Q2Qc 7) 7;
     2%positive := Build_mc_result (Q2Qc (1 # 10)) (Q2Qc (1 # 100)) 1;
     3%positive := Build_mc_result (Q2Qc (1 # 2)) (Q2Qc (1 # 3)) 2 ]}.

(** A tolerance of 2^-700, whose square rounds to zero. *)
Definition param_rtol_tiny : mc_param_t float :=
  Build_mc_param 1 0x1p-700%float 10000000 5000.

(** The result [mc_result_init] leaves: no trial. *)
Definition result_no_trials : mc_result_t float := Build_mc_result 0%float 0%float 0.


(** A stand-in generator that steps through the multiples of 2^-32: the
    state [s] gives the value [s / 2^32]. *)
Definition gen_grid (s : Z) : float * Z :=
  (div (of_long s) (of_long (2 ^ 32)), s + 1).

(** * Properties *)

(** ** The store *)

Section StoreSteps.

Context {D : Type}.
Implicit Types (h : gmap loc (mc_result_t D)) (r : mc_result_t D).

Lemma bind_run {A B} (m : M D A) (f : A → M D B) h :
  (m ≫= f) h = match m h with Some (a, h') => f a h' | None => None end.
Proof. reflexivity. Qed.

Lemma read_run {A} p (f : mc_result_t D → A) h r :
  h !! p = Some r → read p f h = Some (f r, h).
Proof. intros Hp. unfold read. by rewrite Hp. Qed.

Lemma write_run p set h r :
  h !! p = Some r → write p set h = Some ((), <[p := set r]> h).
Proof. intros Hp. unfold write. by rewrite Hp. Qed.

End StoreSteps.

(** Resolve a lookup in a store built by inserts. *)
Ltac solve_lookup :=
  repeat (rewrite lookup_insert_ne by done);
  first [ apply lookup_insert_eq | eassumption ].

(** Run the reads and writes of a computation whose pointers are known to be
    live. *)
Ltac run_store :=
  repeat first
    [ rewrite bind_run
    | erewrite read_run by solve_lookup
    | erewrite write_run by solve_lookup ].

Section StoreFacts.

Context {D : Type} `{Arith D}.
Implicit Types (h : gmap loc (mc_result_t D)) (r b : mc_result_t D).

Lemma mc_result_init_run h result r :
  h !! result = Some r →
  mc_result_init result h = Some ((), <[result := Build_mc_result zero zero 0]> h).
Proof.
  intros Hr. unfold mc_result_init. run_store. by rewrite !insert_insert_eq.
Qed.

Lemma mc_result_update_distinct h result batch r b :
  result ≠ batch → h !! result = Some r → h !! batch = Some b →
  mc_result_update result batch h = Some ((), <[result := merged r b]> h).
Proof.
  intros Hne Hr Hb. unfold mc_result_update. run_store.
  by rewrite !insert_insert_eq.
Qed.

(** When both pointers name the same object, each field is added to
    itself. *)
Lemma mc_result_update_alias h p r :
  h !! p = Some r →
  mc_result_update p p h = Some ((), <[p := merged r r]> h).
Proof.
  intros Hr. unfold mc_result_update. run_store.
  by rewrite !insert_insert_eq.
Qed.

End StoreFacts.

(** ** Merging *)

Section Wrap.

Lemma long_wrap_in_long z : in_long z → long_wrap z = z.
Proof.
  unfold in_long, LONG_MIN, LONG_MAX, long_wrap. intros Hz.
  rewrite Z.mod_small by lia. lia.
Qed.

Lemma long_wrap_add_l a b : long_wrap (long_wrap a + b) = long_wrap (a + b).
Proof.
  unfold long_wrap.
  replace ((a + 2 ^ 63) mod 2 ^ 64 - 2 ^ 63 + b + 2 ^ 63)
    with ((a + 2 ^ 63) mod 2 ^ 64 + b) by lia.
  rewrite Zplus_mod_idemp_l. do 2 f_equal. lia.
Qed.

Lemma fold_long_add zs a :
  fold_left long_add zs (long_wrap a) = long_wrap (a + sum_Z zs).
Proof.
  revert a. induction zs as [|z zs IH]; intros a; simpl.
  - by rewrite Z.add_0_r.
  - unfold long_add at 2. rewrite long_wrap_add_l, IH. f_equal. lia.
Qed.

End Wrap.

Section Merging.

Context {D : Type} `{Arith D}.
Implicit Types (h : gmap loc (mc_result_t D)) (r b v : mc_result_t D).
Implicit Types (vs : list (mc_result_t D)) (batches : list loc).

Lemma batch_is_insert h result batch v r :
  batch_is h result batch v → batch_is (<[result := r]> h) result batch v.
Proof. intros [Hne Hb]. split; [done|]. by rewrite lookup_insert_ne. Qed.

Lemma merges_run batches : ∀ h result r vs,
  h !! result = Some r → Forall2 (batch_is h result) batches vs →
  merges result batches h = Some ((), <[result := fold_left merged vs r]> h).
Proof.
  induction batches as [|b bs IH]; intros h result r vs Hr Hvs.
  - apply Forall2_nil_inv_l in Hvs as ->. simpl.
    by rewrite insert_id.
  - apply Forall2_cons_inv_l in Hvs as (v & vs' & [Hne Hv] & Hvs' & ->).
    simpl. rewrite bind_run.
    rewrite (mc_result_update_distinct h result b r v (not_eq_sym Hne) Hr Hv).
    rewrite (IH _ result (merged r v) vs').
    + by rewrite insert_insert_eq.
    + apply lookup_insert_eq.
    + eapply Forall2_impl; [exact Hvs'|]. intros b' v'. apply batch_is_insert.
Qed.

Lemma fold_merged vs : ∀ r,
  fold_left merged vs r =
    Build_mc_result (fold_left add (sum_X <$> vs) (sum_X r))
                    (fold_left add (sum_X2 <$> vs) (sum_X2 r))
                    (fold_left long_add (ntrials <$> vs) (ntrials r)).
Proof.
  induction vs as [|v vs IH]; intros r; simpl.
  - by destruct r.
  - by rewrite IH.
Qed.

(** The store after initialising [*result] and merging the batches: the
    count is the sum of the counts in 64-bit arithmetic. *)
Lemma merges_from_init h result batches vs :
  is_Some (h !! result) → Forall2 (batch_is h result) batches vs →
  (mc_result_init result;; merges result batches) h =
    Some ((), <[result := Build_mc_result (sum_D (sum_X <$> vs)) (sum_D (sum_X2 <$> vs))
                            (long_wrap (sum_Z (ntrials <$> vs)))]> h).
Proof.
  intros [r Hr] Hvs. rewrite bind_run, (mc_result_init_run h result r Hr).
  rewrite (merges_run batches _ result (Build_mc_result zero zero 0) vs).
  - rewrite insert_insert_eq, fold_merged. simpl.
    change 0 with (long_wrap 0) at 1. by rewrite fold_long_add.
  - apply lookup_insert_eq.
  - eapply Forall2_impl; [exact Hvs|]. intros b' v'. apply batch_is_insert.
Qed.

(** C2: starting from a shared result set up by [mc_result_init] (all three
    fields zero), after the merges [mc_result_update(result, b)] for the
    batches [b] of any finite list, in order, the fields of [*result] are the
    element-wise sums of the batches merged: [sum_X] and [sum_X2] the sums of
    the batches' fields (accumulated from 0 in the order of the merges, in
    the arithmetic of [double]) and [ntrials] the sum of their counts, that
    sum being one a [long] can hold.  The batches are objects other than
    [*result] and [vs] are their contents; nothing else in the store
    changes. *)
Theorem merges_from_init_total h result batches vs :
  is_Some (h !! result) → Forall2 (batch_is h result) batches vs →
  in_long (sum_Z (ntrials <$> vs)) →
  exec (mc_result_init result;; merges result batches) h =
    Some (<[result := total vs]> h).
Proof.
  intros Hr Hvs Hin. unfold exec.
  rewrite (merges_from_init h result batches vs Hr Hvs). simpl.
  by rewrite (long_wrap_in_long _ Hin).
Qed.




Section ExactAddition.

Hypothesis add_comm : ∀ x y : D, add x y = add y x.
Hypothesis add_assoc : ∀ x y z : D, add x (add y z) = add (add x y) z.




End ExactAddition.


(** C9: for a shared result at [result] and a batch at [batch], two distinct
    objects, [mc_result_update(result, batch)] succeeds, leaves [*batch] as it
    was, leaves every object other than [*result] as it was, and leaves in
    [*result] the field-wise sums: it writes the three fields [sum_X],
    [sum_X2] and [ntrials] of [*result] and nothing else. *)
Theorem mc_result_update_frame h result batch r b :
  result ≠ batch → h !! result = Some r → h !! batch = Some b →
  ∃ h',
    exec (mc_result_update result batch) h = Some h'
    ∧ h' !! batch = Some b
    ∧ h' !! result = Some (merged r b)
    ∧ ∀ q, q ≠ result → h' !! q = h !! q.
Proof.
  intros Hne Hr Hb. exists (<[result := merged r b]> h). unfold exec.
  rewrite (mc_result_update_distinct h result batch r b Hne Hr Hb). simpl.
  split; [done|]. split; [by rewrite lookup_insert_ne|].
  split; [apply lookup_insert_eq|].
  intros q Hq. by rewrite lookup_insert_ne.
Qed.

End Merging.

(** C2 on the sample store: the shared result at 1 after merging the batches
    at 2 and 3. *)
Lemma merges_from_init_total_witness :
  exec (mc_result_init 1%positive;; merges 1%positive [2%positive; 3%positive])
       demo_store =
    Some (<[1%positive := total [Build_mc_result 0.5%float 0.25%float 1;
                                 Build_mc_result 1.5%float 1.25%float 2]]>
            demo_store).
Proof.
  apply (merges_from_init_total demo_store 1%positive [2%positive; 3%positive]).
  - exists (Build_mc_result 7%float 7%float 7). reflexivity.
  - repeat constructor; done.
  - unfold in_long, LONG_MIN, LONG_MAX. simpl. lia.
Defined.


(** C9 on the sample store: the batch at 2 merged into the shared result
    at 1. *)
Lemma mc_result_update_frame_witness :
  ∃ h',
    exec (mc_result_update 1%positive 2%positive) demo_store = Some h'
    ∧ h' !! 2%positive = Some (Build_mc_result 0.5%float 0.25%float 1)
    ∧ h' !! 1%positive =
        Some (merged (Build_mc_result 7%float 7%float 7)
                     (Build_mc_result 0.5%float 0.25%float 1))
    ∧ ∀ q, q ≠ 1%positive → h' !! q = demo_store !! q.
Proof.
  apply (mc_result_update_frame demo_store 1%positive 2%positive); done.
Defined.

(** Merging the batch at 2 of the sample store into itself doubles it. *)
Lemma mc_result_update_alias_witness :
  mc_result_update 2%positive 2%positive demo_store =
    Some ((), <[2%positive := merged (Build_mc_result 0.5%float 0.25%float 1)
                                     (Build_mc_result 0.5%float 0.25%float 1)]>
                demo_store).
Proof. apply (mc_result_update_alias demo_store 2%positive). reflexivity. Defined.

(** In binary64 the order of the merges shows in the sums: 0.5, 2^-54 and
    2^-54 added from the left give 0.5 (each addition is a tie that rounds to
    even), while 2^-54, 2^-54 and 0.5 give 0.5 + 2^-53. *)
Remark sum_D_order_binary64 :
  sum_D [0.5%float; 0x1p-54%float; 0x1p-54%float] ≠
  sum_D [0x1p-54%float; 0x1p-54%float; 0.5%float].
Proof.
  intros Heq. apply (f_equal (λ x, PrimFloat.eqb x 0.5%float)) in Heq.
  vm_compute in Heq. discriminate.
Qed.

(** ** Trials *)

Section TrialFacts.

Context {D : Type} `{Arith D} {MT : Type} (genrand : MT → D * MT).

Lemma run_trial_genrand mt : run_trial genrand mt = genrand mt.
Proof. unfold run_trial. by destruct (genrand mt). Qed.

Lemma draws_length n : ∀ mt, length (fst (draws genrand n mt)) = n.
Proof.
  induction n as [|n IH]; intros mt; simpl; [done|].
  destruct (genrand mt) as [X mt']. specialize (IH mt').
  destruct (draws genrand n mt'). simpl in *. by rewrite IH.
Qed.

(** The loop entered at [t] makes the remaining [nbatch - t] draws and adds
    each value and its square to the accumulators. *)
Lemma run_trials_loop_draws n : ∀ nbatch t mt sX sX2,
  Z.to_nat (nbatch - t) = n →
  run_trials_loop genrand nbatch t mt sX sX2 =
    (snd (draws genrand n mt),
     fold_left add (fst (draws genrand n mt)) sX,
     fold_left add ((λ X, mul X X) <$> fst (draws genrand n mt)) sX2).
Proof.
  induction n as [|n IH]; intros nbatch t mt sX sX2 Hn;
    simp run_trials_loop; destruct (Z_lt_dec t nbatch) as [Hlt|Hge]; simpl;
    try lia; try done.
  rewrite (IH nbatch (t + 1)) by lia.
  rewrite run_trial_genrand. destruct (genrand mt) as [X mt']. simpl.
  by destruct (draws genrand n mt').
Qed.

(** C4: for a stream in state [mt] and a batch size [nbatch >= 0],
    [run_trials(mt, nbatch, result)] draws exactly [nbatch] values from the
    stream, one per trial (the first [nbatch] values of the stream, which it
    leaves in the state after them), and sets [result->sum_X] to their sum,
    [result->sum_X2] to the sum of their squares and [result->ntrials] to
    [nbatch]. *)
Theorem run_trials_draws mt nbatch result (h : gmap loc (mc_result_t D)) :
  0 <= nbatch → is_Some (h !! result) →
  Z.of_nat (length (fst (draws genrand (Z.to_nat nbatch) mt))) = nbatch
  ∧ run_trials genrand mt nbatch result h =
      Some (snd (draws genrand (Z.to_nat nbatch) mt),
            <[result := Build_mc_result
                          (sum_D (fst (draws genrand (Z.to_nat nbatch) mt)))
                          (sum_D ((λ X, mul X X) <$>
                                    fst (draws genrand (Z.to_nat nbatch) mt)))
                          nbatch]> h).
Proof.
  intros Hn [r Hr]. split; [rewrite draws_length; lia|].
  unfold run_trials.
  rewrite (run_trials_loop_draws (Z.to_nat nbatch)) by (f_equal; lia).
  run_store. by rewrite !insert_insert_eq.
Qed.

End TrialFacts.

(** ** The convergence test *)

Section Convergence.

Context {D : Type} `{Arith D}.

(** The last division of [is_converged] is the one its result rests on. *)
Lemma is_converged_divisions_last param result :
  ∃ varEst EX2,
    last (is_converged_divisions param result) = Some (varEst, EX2)
    ∧ is_converged param result =
        if ltb (div varEst EX2) (mul (rtol param) (rtol param)) then 1
        else if ltb (D := D) (of_long (maxtrials param)) (of_long (ntrials result)) then 1
        else 0.
Proof. eexists _, _. split; reflexivity. Qed.

End Convergence.

(** C4 on the stand-in generator: three trials from state 42 into the object
    at 1. *)
Lemma run_trials_draws_witness :
  Z.of_nat (length (fst (draws (D := float) lcg (Z.to_nat 3) 42))) = 3
  ∧ run_trials lcg 42 3 1%positive demo_store =
      Some (snd (draws (D := float) lcg (Z.to_nat 3) 42),
            <[1%positive := Build_mc_result
                              (sum_D (fst (draws lcg (Z.to_nat 3) 42)))
                              (sum_D ((λ X, mul X X) <$>
                                        fst (draws lcg (Z.to_nat 3) 42)))
                              3]> demo_store).
Proof.
  apply (run_trials_draws (D := float) lcg 42 3 1%positive demo_store).
  - lia.
  - eexists. reflexivity.
Defined.

(** ** Command line *)

Section CommandLineFacts.

Context {D : Type} `{Arith D}.
Context (atoi atol : string → Z) (atof : string → D) (MAX_MC_THREADS : Z).

(** The functions at the section's conversions and thread cap. *)
Local Abbreviation opt_step := (process_opt atoi atol atof MAX_MC_THREADS).
Local Abbreviation opt_loop := (getopt_loop atoi atol atof MAX_MC_THREADS).
Local Abbreviation args := (process_args atoi atol atof MAX_MC_THREADS).

(** The loop over a sequence of returns resumes after a prefix that holds
    no -1 in the state the prefix leaves, and stops at the first error. *)
Lemma getopt_loop_app pre calls : ∀ nthreads param,
  Forall (λ g, opt_c g ≠ -1) pre →
  opt_loop (pre ++ calls) nthreads param =
    match opt_loop pre nthreads param with
    | inl (nthreads', param') => opt_loop calls nthreads' param'
    | inr err => inr err
    end.
Proof.
  induction pre as [|g pre IH]; intros nthreads param Hpre; simpl; [done|].
  apply Forall_cons in Hpre as [Hg Hpre].
  destruct (Z.eqb_spec (opt_c g) (-1)) as [|_]; [done|].
  destruct (opt_step g nthreads param) as [[n' p']|err]; [|done].
  by apply IH.
Qed.

Lemma process_opt_nthreads_range g nthreads param :
  opt_c g = chr "p" → atoi (optarg g) <= 0 ∨ MAX_MC_THREADS < atoi (optarg g) →
  opt_step g nthreads param = inr (msg_nthreads MAX_MC_THREADS).
Proof.
  intros Hc Hrange. unfold process_opt. rewrite Hc. simpl.
  destruct (Z.leb_spec (atoi (optarg g)) 0); [done|].
  destruct (Z.ltb_spec MAX_MC_THREADS (atoi (optarg g))); [done|lia].
Qed.

(** C7: a worker count [p] given with [-p] such that [p <= 0] or
    [p > MAX_MC_THREADS] makes [process_args] write an error and call
    [exit(-1)]: it never returns, so no worker is created and no trial runs.
    Here [g] is the return of [getopt] for that [-p], reached after the
    returns [pre] (none of them the final -1) and followed by any returns
    [post].  The text written is "nthreads must be in [1,MAX_MC_THREADS]"
    unless an option before [-p] was itself refused, in which case it is
    that option's error. *)
Theorem process_args_nthreads_range pre g post optind argc param :
  Forall (λ g', opt_c g' ≠ -1) pre →
  opt_c g = chr "p" → atoi (optarg g) <= 0 ∨ MAX_MC_THREADS < atoi (optarg g) →
  process_args atoi atol atof MAX_MC_THREADS (pre ++ g :: post) optind argc param =
    Exited (-1)
      match getopt_loop atoi atol atof MAX_MC_THREADS pre 0 (mc_param_init param) with
      | inl _ => msg_nthreads MAX_MC_THREADS
      | inr err => err
      end.
Proof.
  intros Hpre Hc Hrange. unfold process_args.
  rewrite (getopt_loop_app pre (g :: post) _ _ Hpre).
  destruct (opt_loop pre 0 (mc_param_init param)) as [[n' p']|err]; [|done].
  simpl. rewrite Hc. change (chr "p" =? -1) with false. simpl.
  by rewrite (process_opt_nthreads_range g n' p' Hc Hrange).
Qed.

(** The texts written on the other errors differ from the one on a thread
    count out of range. *)
Lemma msg_nthreads_distinct err :
  err ∈ [msg_rtol; msg_maxtrials; msg_nbatch; msg_nonoption] ∨
  (∃ o, err = msg_requires o ∨ err = msg_unknown o) →
  err ≠ msg_nthreads MAX_MC_THREADS.
Proof.
  unfold msg_nthreads. simpl.
  intros [Hin|[o [->| ->]]]; [|by simpl..].
  repeat (apply elem_of_cons in Hin as [->|Hin]; [by simpl|]).
  by apply elem_of_nil in Hin.
Qed.

Lemma process_opt_no_p g nthreads param :
  opt_c g ≠ chr "p" →
  match opt_step g nthreads param with
  | inl (nthreads', _) => nthreads' = nthreads
  | inr err => err ≠ msg_nthreads MAX_MC_THREADS
  end.
Proof.
  intros Hc. unfold process_opt.
  destruct (Z.eqb_spec (opt_c g) (chr "p")) as [|_]; [done|].
  repeat match goal with
  | |- context [if ?b then _ else _] => destruct b
  end; try done; apply msg_nthreads_distinct; try (left; set_solver);
    right; eexists; eauto.
Qed.

Lemma getopt_loop_no_p calls : ∀ nthreads param,
  Forall (λ g, opt_c g ≠ chr "p") calls →
  match opt_loop calls nthreads param with
  | inl (nthreads', _) => nthreads' = nthreads
  | inr err => err ≠ msg_nthreads MAX_MC_THREADS
  end.
Proof.
  induction calls as [|g calls IH]; intros nthreads param Hcalls; simpl; [done|].
  apply Forall_cons in Hcalls as [Hg Hcalls].
  destruct (opt_c g =? -1); [done|].
  pose proof (process_opt_no_p g nthreads param Hg) as Hopt.
  destruct (opt_step g nthreads param) as [[n' p']|err]; [|done].
  subst n'. by apply IH.
Qed.

(** With no option at all and no other argument, [process_args] returns
    the thread count 0 and the default parameters. *)
Lemma process_args_no_options optind argc param :
  argc <= optind →
  args [] optind argc param = Returned 0 (mc_param_init param).
Proof.
  intros Hle. unfold process_args. simpl.
  destruct (Z.ltb_spec optind argc); [lia|done].
Qed.

(** A tolerance below zero is refused. *)
Lemma process_opt_rtol_negative g nthreads param :
  opt_c g = chr "t" → ltb (atof (optarg g)) zero = true →
  opt_step g nthreads param = inr msg_rtol.
Proof.
  intros Hc Hneg. unfold process_opt. rewrite Hc. simpl. by rewrite Hneg.
Qed.

(** A tolerance that is not below zero is stored. *)
Lemma process_opt_rtol_accepted g nthreads param :
  opt_c g = chr "t" → ltb (atof (optarg g)) zero = false →
  opt_step g nthreads param =
    inl (nthreads, Build_mc_param (verbose param) (atof (optarg g))
                     (maxtrials param) (nbatch param)).
Proof.
  intros Hc Hneg. unfold process_opt. rewrite Hc. simpl. by rewrite Hneg.
Qed.

End CommandLineFacts.

(** C6: the claim asks for a fatal error on every tolerance [t <= 0].  The
    code tests [param->rtol < 0] only: on the command line [-t 0] (with any
    [atoi], [atol] and thread cap, and [atof] reading "0" as 0.0)
    [process_args] writes nothing, returns normally and leaves [rtol = 0] in
    the parameters, against its own message "rtol must be positive". *)
Theorem process_args_accepts_zero_rtol (atoi atol : string → Z) (MAX_MC_THREADS : Z)
    (optind : Z) (param : mc_param_t float) :
  process_args atoi atol atof_int MAX_MC_THREADS [opt "t" "0"] optind optind param =
    Returned 0 (Build_mc_param 1 0%float 10000000 5000).
Proof.
  unfold process_args.
  replace (getopt_loop atoi atol atof_int MAX_MC_THREADS [opt "t" "0"] 0
             (mc_param_init param))
    with (inl (0, Build_mc_param 1 0%float 10000000 5000) :
            (Z * mc_param_t float) + string)
    by (by vm_compute).
  by rewrite Z.ltb_irrefl.
Qed.

(** C7 on the command line [-p 0] with a cap of 240 threads. *)
Lemma process_args_nthreads_range_witness :
  process_args atoi_dec atoi_dec atof_int 240 ([] ++ opt "p" "0" :: []) 3 3
               param_default =
    Exited (-1)
      match getopt_loop atoi_dec atoi_dec atof_int 240 [] 0
              (mc_param_init param_default) with
      | inl _ => msg_nthreads 240
      | inr err => err
      end.
Proof.
  apply (process_args_nthreads_range atoi_dec atoi_dec atof_int 240 []
           (opt "p" "0") [] 3 3 param_default).
  - constructor.
  - reflexivity.
  - left. vm_compute. discriminate.
Defined.

(** The empty command line. *)
Lemma process_args_no_options_witness :
  process_args atoi_dec atoi_dec atof_int 240 [] 1 1 param_default =
    Returned 0 (mc_param_init param_default).
Proof.
  apply (process_args_no_options atoi_dec atoi_dec atof_int 240 1 1 param_default).
  lia.
Defined.

(** The command line [-n 12] is accepted: the thread count returned is 0. *)
Example process_args_n_12 :
  process_args atoi_dec atoi_dec atof_int 240 [opt "n" "12"] 3 3 param_default =
    Returned 0 (Build_mc_param 1 0x1.a36e2eb1c432dp-14%float 12 5000).
Proof. reflexivity. Qed.

(** ** Binary64 *)

Module Binary64.

Lemma zero_eq : zero (D := float) = PrimFloat.zero.
Proof. reflexivity. Qed.

Lemma Prim2SF_zero : Prim2SF PrimFloat.zero = S754_zero false.
Proof. reflexivity. Qed.

(** [x < 0] fails exactly on the values that are not below zero. *)
Lemma ltb_zero_false x :
  PrimFloat.ltb x PrimFloat.zero = false ↔ sf_nonneg (Prim2SF x).
Proof.
  rewrite FloatAxioms.ltb_spec, Prim2SF_zero. unfold SFltb.
  destruct (Prim2SF x) as [s|s| |s m e]; simpl; try destruct s; naive_solver.
Qed.

(** [x == 0] holds exactly on the two zeros. *)
Lemma eqb_zero_true x :
  PrimFloat.eqb x PrimFloat.zero = true ↔ sf_is_zero (Prim2SF x).
Proof.
  rewrite FloatAxioms.eqb_spec, Prim2SF_zero. unfold SFeqb.
  destruct (Prim2SF x) as [s|s| |s m e]; simpl; try destruct s; naive_solver.
Qed.

(** Rounding keeps the sign it is given. *)
Lemma binary_round_aux_sign m e l :
  sf_positive_sign (binary_round_aux prec emax false m e l).
Proof.
  unfold binary_round_aux.
  destruct (shr_fexp prec emax m e l) as [mrs' e'].
  destruct (shr_fexp prec emax _ e' loc_Exact) as [mrs'' e''].
  destruct (shr_m mrs''); simpl; [done| |done].
  by destruct (e'' <=? emax - prec).
Qed.

Lemma SFdiv_nonneg x y :
  sf_nonneg x → sf_positive_sign y → sf_nonneg (SF64div x y).
Proof.
  destruct x as [sx|sx| |sx mx ex], y as [sy|sy| |sy my ey];
    intros Hx Hy; simpl in Hx, Hy; subst; try done.
  unfold SF64div, SFdiv.
  destruct (SFdiv_core_binary prec emax (Z.pos mx) ex (Z.pos my) ey) as [[mz ez] lz].
  pose proof (binary_round_aux_sign mz ez lz) as Hs.
  change (xorb false false) with false.
  by destruct (binary_round_aux prec emax false mz ez lz).
Qed.

Lemma SFmul_self x : sf_positive_sign (SF64mul x x).
Proof.
  destruct x as [[]|[]| |[] m e]; try done; apply binary_round_aux_sign.
Qed.

Lemma SFmul_zero_zero x :
  sf_is_zero x → SF64mul x x = S754_zero false.
Proof. by destruct x as [[]|[]| |[] m e]. Qed.

(** The conversion of a non-negative [long] is the rounding of its value. *)
Lemma Prim2SF_of_long z :
  0 <= z <= LONG_MAX →
  Prim2SF (of_long z) = binary_normalize prec emax z 0 false.
Proof.
  intros Hz.
  assert (Hspec : binary_normalize prec emax z 0 false =
                  Prim2SF (of_uint63 (Uint63.of_Z z))).
  { rewrite of_uint63_spec. f_equal.
    change (Uint63Axioms.to_Z (Uint63Axioms.of_Z z)) with (Uint63.to_Z (Uint63.of_Z z)).
    rewrite Uint63.of_Z_spec. rewrite Z.mod_small; [done|].
    unfold LONG_MAX in Hz. change Uint63.wB with (2 ^ 63). lia. }
  simpl. rewrite Hspec at 1. by rewrite SF2Prim_Prim2SF.
Qed.

Lemma of_long_positive_sign z :
  0 < z <= LONG_MAX → sf_positive_sign (Prim2SF (of_long z)).
Proof.
  intros Hz. rewrite Prim2SF_of_long by lia.
  destruct z as [|p|p]; try lia. simpl. unfold binary_round.
  destruct (shl_align _ _ _). apply binary_round_aux_sign.
Qed.

(** *** Shifting a mantissa to the right *)

Lemma digits2_pos_size p : digits2_pos p = Pos.size p.
Proof. induction p as [p IH|p IH|]; simpl; by rewrite ?IH. Qed.

Lemma digits2_pos_log2 p : Z.pos (digits2_pos p) = Z.log2 (Z.pos p) + 1.
Proof.
  rewrite digits2_pos_size. destruct p as [p|p|]; simpl; lia.
Qed.

Lemma shr_1_m mrs : 0 <= shr_m mrs → shr_m (shr_1 mrs) = Z.div2 (shr_m mrs).
Proof. destruct mrs as [[|[m|m|]|m] r s]; simpl; done. Qed.

Lemma iter_pos_shr_m p : ∀ mrs,
  0 <= shr_m mrs →
  shr_m (SpecFloat.iter_pos shr_1 p mrs) = Z.shiftr (shr_m mrs) (Z.pos p).
Proof.
  assert (Hstep : ∀ mrs, 0 <= shr_m mrs →
            shr_m (shr_1 mrs) = Z.shiftr (shr_m mrs) 1 ∧ 0 <= shr_m (shr_1 mrs)).
  { intros mrs Hm. rewrite shr_1_m by done. rewrite Z.div2_spec.
    split; [done|]. by apply Z.shiftr_nonneg. }
  induction p as [p IH|p IH|]; intros mrs Hm; simpl.
  - destruct (Hstep mrs Hm) as [H1 H1'].
    rewrite IH by (rewrite IH by done; by apply Z.shiftr_nonneg).
    rewrite IH, H1 by done. rewrite !Z.shiftr_shiftr by lia. f_equal. lia.
  - rewrite IH by (rewrite IH by done; by apply Z.shiftr_nonneg).
    rewrite IH by done. rewrite !Z.shiftr_shiftr by lia. f_equal. lia.
  - by apply Hstep.
Qed.

Lemma shiftr_pos m n : 0 <= n <= Z.log2 (Z.pos m) → 0 < Z.shiftr (Z.pos m) n.
Proof.
  intros Hn. rewrite Z.shiftr_div_pow2 by lia.
  apply Z.div_str_pos. split; [apply Z.pow_pos_nonneg; lia|].
  apply Z.log2_le_pow2; lia.
Qed.

(** Bringing a positive mantissa whose exponent is not below [emin] to
    the format leaves a positive mantissa. *)
Lemma shr_fexp_pos m e l :
  emin <= e →
  0 < shr_m (fst (shr_fexp prec emax (Z.pos m) e l))
  ∧ e <= snd (shr_fexp prec emax (Z.pos m) e l).
Proof.
  intros He. unfold shr_fexp, shr.
  assert (Hrec : shr_m (shr_record_of_loc (Z.pos m) l) = Z.pos m).
  { by destruct l as [|[]]. }
  destruct (fexp prec emax (Zdigits2 (Z.pos m) + e) - e) as [|k|k] eqn:Hk;
    simpl fst; simpl snd; rewrite ?Hrec; try (split; lia).
  rewrite iter_pos_shr_m, Hrec by (rewrite Hrec; lia).
  split; [|lia]. apply shiftr_pos.
  revert Hk. unfold fexp. simpl Zdigits2. rewrite digits2_pos_log2.
  unfold SpecFloat.emin, emin, prec, emax in *. lia.
Qed.

Lemma round_nearest_even_pos m l : 0 < m → 0 < round_nearest_even m l.
Proof.
  intros Hm. destruct l as [|[]]; simpl; try lia.
  destruct (Z.even m); lia.
Qed.

(** Rounding a positive mantissa whose exponent is not below [emin] gives
    a positive number or, on overflow, infinity: never zero, never NaN. *)
Lemma binary_round_aux_positive m e l :
  emin <= e → sf_positive (binary_round_aux prec emax false (Z.pos m) e l).
Proof.
  intros He. unfold binary_round_aux.
  destruct (shr_fexp_pos m e l He) as [Hm' He'].
  destruct (shr_fexp prec emax (Z.pos m) e l) as [mrs' e']. simpl in Hm', He'.
  pose proof (round_nearest_even_pos (shr_m mrs') (loc_of_shr_record mrs') Hm') as Hr.
  destruct (round_nearest_even (shr_m mrs') (loc_of_shr_record mrs')) as [|m2|m2];
    try lia.
  destruct (shr_fexp_pos m2 e' loc_Exact ltac:(lia)) as [Hm'' _].
  destruct (shr_fexp prec emax (Z.pos m2) e' loc_Exact) as [mrs'' e''].
  simpl in Hm''. destruct (shr_m mrs''); try lia.
  by destruct (e'' <=? emax - prec).
Qed.

(** A positive [long] converts to a positive number. *)
Lemma of_long_positive z :
  0 < z <= LONG_MAX → sf_positive (Prim2SF (of_long z)).
Proof.
  intros Hz. rewrite Prim2SF_of_long by lia.
  destruct z as [|p|p]; try lia. simpl binary_normalize. unfold binary_round.
  unfold shl_align.
  destruct (fexp prec emax (Z.pos (digits2_pos p) + 0) - 0) as [|d|d] eqn:Hd;
    apply binary_round_aux_positive; try (unfold SpecFloat.emin, emin, prec, emax; lia).
  revert Hd. unfold fexp. unfold SpecFloat.emin, emin, prec, emax. lia.
Qed.
(** *** Counts below 2^53 convert exactly *)

Lemma iter_xO_mul p k : Z.pos (Pos.iter xO p k) = Z.pos p * 2 ^ Z.pos k.
Proof.
  induction k as [|k IH] using Pos.peano_ind.
  - simpl. lia.
  - rewrite Pos.iter_succ, Pos2Z.inj_xO, IH, Pos2Z.inj_succ, Z.pow_succ_r by lia. lia.
Qed.

(** The mantissa and exponent of a positive integer below 2^53: the integer
    shifted left until it has 53 digits. *)
Lemma binary_normalize_small p :
  Z.pos p < 2 ^ 53 →
  ∃ m, binary_normalize prec emax (Z.pos p) 0 false =
         S754_finite false m (Z.log2 (Z.pos p) - 52)
       ∧ Z.pos m = Z.pos p * 2 ^ (52 - Z.log2 (Z.pos p)).
Proof.
  intros Hp.
  assert (Hlog : 0 <= Z.log2 (Z.pos p) < 53).
  { split; [apply Z.log2_nonneg|]. apply Z.log2_lt_pow2; lia. }
  assert (Haux : ∀ m e, Z.pos (digits2_pos m) = 53 → -52 <= e <= 0 →
            binary_round_aux prec emax false (Z.pos m) e loc_Exact =
              S754_finite false m e).
  { intros m e Hd He. unfold binary_round_aux, shr_fexp, shr, fexp.
    simpl Zdigits2. rewrite Hd.
    replace (Z.max (53 + e - prec) (SpecFloat.emin prec emax) - e) with 0
      by (unfold SpecFloat.emin, prec, emax; lia).
    simpl. rewrite Hd.
    replace (Z.max (53 + e - prec) (SpecFloat.emin prec emax) - e) with 0
      by (unfold SpecFloat.emin, prec, emax; lia).
    simpl. destruct (Z.leb_spec e (emax - prec)) as [|Hgt]; [done|].
    unfold prec, emax in Hgt. lia. }
  simpl binary_normalize. unfold binary_round, shl_align, fexp.
  rewrite digits2_pos_log2.
  destruct (Z.max (Z.log2 (Z.pos p) + 1 + 0 - prec) (SpecFloat.emin prec emax) - 0)
    as [|k|k] eqn:Hk; unfold SpecFloat.emin, prec, emax in Hk.
  - exists p. replace (Z.log2 (Z.pos p) - 52) with 0 by lia. split.
    + apply Haux; [rewrite digits2_pos_log2|]; lia.
    + replace (52 - Z.log2 (Z.pos p)) with 0 by lia. lia.
  - lia.
  - exists (Pos.iter xO p k).
    assert (Hm : Z.pos (Pos.iter xO p k) = Z.pos p * 2 ^ (52 - Z.log2 (Z.pos p))).
    { rewrite iter_xO_mul. do 2 f_equal. lia. }
    split; [|done].
    replace (Z.max (Z.log2 (Z.pos p) + 1 + 0 - prec) (SpecFloat.emin prec emax))
      with (Z.log2 (Z.pos p) - 52) by (unfold SpecFloat.emin, prec, emax; lia).
    apply Haux; [|lia].
    rewrite digits2_pos_log2, Hm, Z.log2_mul_pow2 by lia. lia.
Qed.

Lemma SFcompare_small p q :
  Z.pos p < 2 ^ 53 → Z.pos q < 2 ^ 53 →
  SFcompare (binary_normalize prec emax (Z.pos p) 0 false)
            (binary_normalize prec emax (Z.pos q) 0 false)
    = Some (Z.pos p ?= Z.pos q).
Proof.
  intros Hp Hq.
  destruct (binary_normalize_small p Hp) as (m1 & -> & Hm1).
  destruct (binary_normalize_small q Hq) as (m2 & -> & Hm2).
  assert (Hbq : Z.log2 (Z.pos q) < 53) by (apply Z.log2_lt_pow2; lia).
  assert (Hlp := Z.log2_spec (Z.pos p) ltac:(lia)).
  assert (Hlq := Z.log2_spec (Z.pos q) ltac:(lia)).
  unfold SFcompare. f_equal.
  destruct (Z.compare_spec (Z.log2 (Z.pos p) - 52) (Z.log2 (Z.pos q) - 52))
    as [He|He|He].
  - assert (Hl : Z.log2 (Z.pos p) = Z.log2 (Z.pos q)) by lia.
    change (Pos.compare_cont Eq m1 m2) with (Z.pos m1 ?= Z.pos m2).
    rewrite Hm1, Hm2, Hl.
    assert (0 < 2 ^ (52 - Z.log2 (Z.pos q))) by (apply Z.pow_pos_nonneg; lia).
    destruct (Z.compare_spec (Z.pos p) (Z.pos q)) as [Hc|Hc|Hc].
    + apply Z.compare_eq_iff. by rewrite Hc.
    + apply Z.compare_lt_iff. nia.
    + apply Z.compare_gt_iff. nia.
  - symmetry. apply Z.compare_lt_iff.
    assert (2 ^ (Z.log2 (Z.pos p) + 1) <= 2 ^ Z.log2 (Z.pos q))
      by (apply Z.pow_le_mono_r; lia).
    unfold Z.succ in Hlp. lia.
  - symmetry. apply Z.compare_gt_iff.
    assert (2 ^ (Z.log2 (Z.pos q) + 1) <= 2 ^ Z.log2 (Z.pos p))
      by (apply Z.pow_le_mono_r; lia).
    unfold Z.succ in Hlq. lia.
Qed.

(** Below 2^53 the comparison of two converted counts is the comparison of
    the counts. *)
Lemma ltb_of_long_small a b :
  0 <= a < 2 ^ 53 → 0 <= b < 2 ^ 53 →
  ltb (D := float) (of_long a) (of_long b) = (a <? b).
Proof.
  intros Ha Hb. change (@ltb float _) with PrimFloat.ltb.
  rewrite FloatAxioms.ltb_spec, !Prim2SF_of_long by (unfold LONG_MAX; lia).
  unfold SFltb, Z.ltb.
  destruct a as [|p|p], b as [|q|q]; try lia.
  - done.
  - by destruct (binary_normalize_small q ltac:(lia)) as (m & -> & _).
  - by destruct (binary_normalize_small p ltac:(lia)) as (m & -> & _).
  - by rewrite SFcompare_small by lia.
Qed.
(** *** The conversion of a count is monotone *)

Lemma shr_1_code x y :
  0 <= shr_m x → 0 <= shr_m y → shr_code x <= shr_code y →
  shr_code (shr_1 x) <= shr_code (shr_1 y)
  ∧ 0 <= shr_m (shr_1 x) ∧ 0 <= shr_m (shr_1 y).
Proof.
  unfold shr_code.
  destruct x as [[|[mx|mx|]|mx] [] []], y as [[|[my|my|]|my] [] []]; simpl; lia.
Qed.

Lemma iter_pos_shr_code k : ∀ x y,
  0 <= shr_m x → 0 <= shr_m y → shr_code x <= shr_code y →
  shr_code (SpecFloat.iter_pos shr_1 k x) <= shr_code (SpecFloat.iter_pos shr_1 k y)
  ∧ 0 <= shr_m (SpecFloat.iter_pos shr_1 k x)
  ∧ 0 <= shr_m (SpecFloat.iter_pos shr_1 k y).
Proof.
  induction k as [k IH|k IH|]; intros x y Hx Hy Hxy; simpl.
  - destruct (shr_1_code x y Hx Hy Hxy) as (H1 & H1x & H1y).
    destruct (IH _ _ H1x H1y H1) as (H2 & H2x & H2y).
    by apply IH.
  - destruct (IH _ _ Hx Hy Hxy) as (H2 & H2x & H2y).
    by apply IH.
  - by apply shr_1_code.
Qed.

Lemma round_nearest_even_code x y :
  shr_code x <= shr_code y →
  round_nearest_even (shr_m x) (loc_of_shr_record x)
  <= round_nearest_even (shr_m y) (loc_of_shr_record y).
Proof.
  unfold shr_code.
  destruct x as [mx [] []], y as [my [] []]; simpl; intros Hxy;
    try lia; destruct (Z.even mx) eqn:Ex, (Z.even my) eqn:Ey; try lia.
  all: assert (mx ≠ my) by (intros ->; congruence); lia.
Qed.

Lemma round_nearest_even_range m l :
  m <= round_nearest_even m l <= m + 1.
Proof. destruct l as [|[]]; simpl; try lia. destruct (Z.even m); lia. Qed.

Lemma shiftr_range p k :
  0 <= k <= Z.log2 (Z.pos p) →
  2 ^ (Z.log2 (Z.pos p) - k) <= Z.shiftr (Z.pos p) k < 2 ^ (Z.log2 (Z.pos p) - k + 1).
Proof.
  intros Hk. rewrite Z.shiftr_div_pow2 by lia.
  assert (Hl := Z.log2_spec (Z.pos p) ltac:(lia)). unfold Z.succ in Hl.
  assert (Hk2 : 0 < 2 ^ k) by (apply Z.pow_pos_nonneg; lia).
  split.
  - apply Z.div_le_lower_bound; [done|].
    rewrite <- Z.pow_add_r by lia. replace (k + (Z.log2 (Z.pos p) - k)) with (Z.log2 (Z.pos p)) by lia.
    lia.
  - apply Z.div_lt_upper_bound; [done|].
    rewrite <- Z.pow_add_r by lia. replace (k + (Z.log2 (Z.pos p) - k + 1)) with (Z.log2 (Z.pos p) + 1) by lia.
    lia.
Qed.

Lemma rounded_mantissa_range p :
  2 ^ 53 <= Z.pos p →
  2 ^ 52 <= rounded_mantissa p <= 2 ^ 53.
Proof.
  intros Hp. unfold rounded_mantissa.
  assert (Hl : 53 <= Z.log2 (Z.pos p)) by (apply Z.log2_le_pow2; lia).
  set (k := Z.to_pos (Z.log2 (Z.pos p) - 52)).
  assert (Hk : Z.pos k = Z.log2 (Z.pos p) - 52) by (unfold k; lia).
  set (x := SpecFloat.iter_pos shr_1 k _).
  assert (Hm : shr_m x = Z.shiftr (Z.pos p) (Z.pos k)).
  { unfold x. by rewrite iter_pos_shr_m. }
  pose proof (shiftr_range p (Z.pos k) ltac:(lia)) as Hr.
  replace (Z.log2 (Z.pos p) - Z.pos k) with 52 in Hr by lia.
  pose proof (round_nearest_even_range (shr_m x) (loc_of_shr_record x)).
  simpl in Hr. lia.
Qed.

Lemma binary_normalize_large p :
  2 ^ 53 <= Z.pos p < 2 ^ 64 →
  binary_normalize prec emax (Z.pos p) 0 false =
    if rounded_mantissa p <? 2 ^ 53
    then S754_finite false (Z.to_pos (rounded_mantissa p)) (Z.log2 (Z.pos p) - 52)
    else S754_finite false (2 ^ 52)%positive (Z.log2 (Z.pos p) - 51).
Proof.
  intros Hp.
  assert (Hl : 53 <= Z.log2 (Z.pos p) < 64).
  { split; [apply Z.log2_le_pow2; lia|apply Z.log2_lt_pow2; lia]. }
  pose proof (rounded_mantissa_range p ltac:(lia)) as Hr.
  unfold rounded_mantissa in *.
  set (k := Z.to_pos (Z.log2 (Z.pos p) - 52)) in *.
  assert (Hk : Z.pos k = Z.log2 (Z.pos p) - 52) by (unfold k; lia).
  simpl binary_normalize. unfold binary_round, shl_align, fexp.
  rewrite digits2_pos_log2.
  replace (Z.max (Z.log2 (Z.pos p) + 1 + 0 - prec) (SpecFloat.emin prec emax) - 0)
    with (Z.pos k) by (unfold SpecFloat.emin, prec, emax; lia).
  unfold binary_round_aux at 1. unfold shr_fexp at 1. unfold shr at 1, fexp at 1.
  simpl Zdigits2. rewrite digits2_pos_log2.
  replace (Z.max (Z.log2 (Z.pos p) + 1 + 0 - prec) (SpecFloat.emin prec emax) - 0)
    with (Z.pos k) by (unfold SpecFloat.emin, prec, emax; lia).
  change (shr_record_of_loc (Z.pos p) loc_Exact) with (Build_shr_record (Z.pos p) false false).
  set (x := SpecFloat.iter_pos shr_1 k _) in *.
  set (m2 := round_nearest_even (shr_m x) (loc_of_shr_record x)) in *.
  replace (0 + (fexp prec emax (Z.log2 (Z.pos p) + 1 + 0) - 0)) with (Z.pos k)
    by (unfold fexp, SpecFloat.emin, prec, emax; lia).
  destruct (Z.ltb_spec m2 (2 ^ 53)) as [Hlt|Hge].
  - destruct m2 as [|q|q] eqn:Hm2; try lia.
    assert (Hd : Z.pos (digits2_pos q) = 53).
    { rewrite digits2_pos_log2. rewrite (Z.log2_unique (Z.pos q) 52); lia. }
    unfold shr_fexp, shr, fexp. simpl Zdigits2. rewrite Hd.
    replace (Z.max (53 + Z.pos k - prec) (SpecFloat.emin prec emax) - Z.pos k) with 0
      by (unfold SpecFloat.emin, prec, emax; lia).
    simpl shr_m. cbv iota.
    destruct (Z.leb_spec (Z.pos k) (emax - prec)) as [|Hgt].
    + rewrite Hk. done.
    + unfold prec, emax in Hgt. lia.
  - assert (Hm2 : m2 = 2 ^ 53) by lia. rewrite Hm2.
    unfold shr_fexp, shr, fexp.
    replace (Z.max (Zdigits2 (2 ^ 53) + Z.pos k - prec) (SpecFloat.emin prec emax) - Z.pos k)
      with 1 by (unfold SpecFloat.emin, prec, emax; simpl Zdigits2; lia).
    simpl shr_m. cbv iota.
    destruct (Z.leb_spec (Z.pos k + 1) (emax - prec)) as [|Hgt].
    + f_equal. lia.
    + unfold prec, emax in Hgt. lia.
Qed.

Lemma rounded_mantissa_mono p q :
  Z.pos q <= Z.pos p → Z.log2 (Z.pos q) = Z.log2 (Z.pos p) →
  rounded_mantissa q <= rounded_mantissa p.
Proof.
  intros Hqp Hl. unfold rounded_mantissa. rewrite Hl.
  apply round_nearest_even_code.
  apply iter_pos_shr_code; simpl; try lia. unfold shr_code. simpl. lia.
Qed.

Lemma SFltb_finite_false m1 e1 m2 e2 :
  e2 < e1 ∨ (e1 = e2 ∧ Z.pos m2 <= Z.pos m1) →
  SFltb (S754_finite false m1 e1) (S754_finite false m2 e2) = false.
Proof.
  intros Hle. unfold SFltb, SFcompare.
  destruct (Z.compare_spec e1 e2) as [He|He|He]; try lia; try done.
  change (Pos.compare_cont Eq m1 m2) with (Z.pos m1 ?= Z.pos m2).
  destruct (Z.compare_spec (Z.pos m1) (Z.pos m2)); try done. lia.
Qed.

(** Rounding to binary64 keeps the order of two positive integers below
    2^64: the larger one does not convert to the smaller value. *)
Lemma SFltb_normalize_mono p q :
  Z.pos q <= Z.pos p < 2 ^ 64 →
  SFltb (binary_normalize prec emax (Z.pos p) 0 false)
        (binary_normalize prec emax (Z.pos q) 0 false) = false.
Proof.
  intros Hqp.
  destruct (Z.lt_ge_cases (Z.pos p) (2 ^ 53)) as [Hp|Hp].
  { unfold SFltb. rewrite SFcompare_small by lia.
    destruct (Z.compare_spec (Z.pos p) (Z.pos q)); try done. lia. }
  assert (Hlp : 53 <= Z.log2 (Z.pos p)) by (apply Z.log2_le_pow2; lia).
  pose proof (rounded_mantissa_range p Hp) as Hrp.
  rewrite (binary_normalize_large p) by lia.
  destruct (Z.lt_ge_cases (Z.pos q) (2 ^ 53)) as [Hq|Hq].
  { destruct (binary_normalize_small q Hq) as (m & -> & _).
    assert (Z.log2 (Z.pos q) < 53) by (apply Z.log2_lt_pow2; lia).
    destruct (rounded_mantissa p <? 2 ^ 53); apply SFltb_finite_false; lia. }
  assert (Hlq : 53 <= Z.log2 (Z.pos q)) by (apply Z.log2_le_pow2; lia).
  assert (Hlqp : Z.log2 (Z.pos q) <= Z.log2 (Z.pos p)) by (apply Z.log2_le_mono; lia).
  pose proof (rounded_mantissa_range q Hq) as Hrq.
  rewrite (binary_normalize_large q) by lia.
  assert (Hmono : Z.log2 (Z.pos q) = Z.log2 (Z.pos p) →
                  rounded_mantissa q <= rounded_mantissa p)
    by (apply rounded_mantissa_mono; lia).
  change (Z.pos (2 ^ 52)) with (2 ^ 52) in *.
  destruct (Z.ltb_spec (rounded_mantissa p) (2 ^ 53)),
           (Z.ltb_spec (rounded_mantissa q) (2 ^ 53));
    apply SFltb_finite_false; rewrite ?Z2Pos.id by lia;
    change (Z.pos (2 ^ 52)) with (2 ^ 52); lia.
Qed.

(** When the budget converts to less than the count does, the budget is
    less than the count. *)
Lemma of_long_ltb_lt a b :
  a <= LONG_MAX → 0 < b <= LONG_MAX →
  ltb (D := float) (of_long a) (of_long b) = true → a < b.
Proof.
  intros Ha Hb Hlt.
  destruct (Z.lt_ge_cases a b) as [|Hge]; [done|exfalso].
  revert Hlt. change (@ltb float _) with PrimFloat.ltb.
  rewrite FloatAxioms.ltb_spec, !Prim2SF_of_long by lia.
  destruct a as [|p|p], b as [|q|q]; try lia.
  rewrite SFltb_normalize_mono; [done|]. unfold LONG_MAX in *. lia.
Qed.

(** *** The convergence test in binary64 *)

Lemma SFltb_nonneg_zero x : sf_nonneg x → SFltb x (S754_zero false) = false.
Proof. by destruct x as [[]|[]| |[] m e]. Qed.

(** The relative error [varEst/(EX*EX)] is not below zero when the
    variance estimate is not. *)
Lemma relative_error_nonneg (result : mc_result_t float) :
  0 < ntrials result <= LONG_MAX →
  ltb (spec_var result) zero = false →
  sf_nonneg (Prim2SF (div (div (spec_var result) (of_long (ntrials result)))
                          (mul (spec_mean result) (spec_mean result)))).
Proof.
  intros Hn Hvar. change (@div float _) with PrimFloat.div.
  change (@mul float _) with PrimFloat.mul.
  rewrite !div_spec, mul_spec.
  apply SFdiv_nonneg; [apply SFdiv_nonneg|apply SFmul_self].
  - by apply ltb_zero_false.
  - by apply of_long_positive_sign.
Qed.

(** C5, under the condition that the claim takes to follow from sampling:
    with [rtol = 0] (a zero of either sign), a count [ntrials > 0] and a
    variance estimate [EX2 - EX*EX] that, as computed in [double], is not
    below zero, [is_converged] returns 1 exactly
    when [ntrials > maxtrials], compared as the code compares them (both
    converted to [double]), and 0 otherwise: the relative-error test never
    succeeds.  For a budget and a count below 2^53, which convert exactly,
    that is [maxtrials < ntrials] on the integers; and for every budget and
    count a result of 1 implies [maxtrials < ntrials] on the integers, the
    conversion being monotone: a run with tolerance 0 and budget M stops
    only with a count that exceeds M. *)
Theorem is_converged_zero_rtol (param : mc_param_t float) (result : mc_result_t float) :
  PrimFloat.eqb (rtol param) zero = true →
  0 < ntrials result <= LONG_MAX →
  ltb (spec_var result) zero = false →
  (is_converged param result = 1 ↔
     ltb (D := float) (of_long (maxtrials param)) (of_long (ntrials result)) = true)
  ∧ (is_converged param result = 0 ↔
     ltb (D := float) (of_long (maxtrials param)) (of_long (ntrials result)) = false)
  ∧ (0 <= maxtrials param < 2 ^ 53 → ntrials result < 2 ^ 53 →
     (is_converged param result = 1 ↔ maxtrials param < ntrials result))
  ∧ (maxtrials param <= LONG_MAX →
     is_converged param result = 1 → maxtrials param < ntrials result).
Proof.
  intros Hrtol Hn Hvar.
  pose proof (relative_error_nonneg result Hn Hvar) as Hq.
  unfold is_converged. fold (spec_mean result). fold (spec_var result).
  set (q := div (div (spec_var result) _) _) in *.
  assert (Hlt : ltb q (mul (rtol param) (rtol param)) = false).
  { change (@ltb float _) with PrimFloat.ltb.
    change (@mul float _) with PrimFloat.mul.
    rewrite FloatAxioms.ltb_spec, mul_spec.
    rewrite SFmul_zero_zero by (by apply eqb_zero_true).
    by apply SFltb_nonneg_zero. }
  rewrite Hlt. split; [|split; [|split]].
  - by destruct (ltb (D := float) (of_long (maxtrials param)) (of_long (ntrials result))).
  - by destruct (ltb (D := float) (of_long (maxtrials param)) (of_long (ntrials result))).
  - intros Hm Hn'. rewrite (ltb_of_long_small _ _ Hm) by lia.
    destruct (Z.ltb_spec (maxtrials param) (ntrials result));
      split; intros ?; (done || lia).
  - intros Hm. pose proof (of_long_ltb_lt (maxtrials param) (ntrials result) Hm Hn).
    destruct (ltb (D := float) (of_long (maxtrials param)) (of_long (ntrials result)));
      [auto|done].
Qed.

(** With a sum of zero the mean is a zero and its square is [+0]. *)
Lemma zero_mean_square (result : mc_result_t float) :
  0 < ntrials result <= LONG_MAX →
  PrimFloat.eqb (sum_X result) zero = true →
  mul (spec_mean result) (spec_mean result) = PrimFloat.zero.
Proof.
  intros Hn Hsum. apply Prim2SF_inj.
  change (@mul float _) with PrimFloat.mul. rewrite mul_spec, Prim2SF_zero.
  apply SFmul_zero_zero. unfold spec_mean.
  change (@div float _) with PrimFloat.div. rewrite div_spec.
  apply eqb_zero_true in Hsum. pose proof (of_long_positive _ Hn) as Hpos.
  destruct (Prim2SF (sum_X result)); try done.
  by destruct (Prim2SF (of_long (ntrials result))).
Qed.

Lemma is_converged_divisions_eq (param : mc_param_t float) result :
  is_converged_divisions param result =
    [(sum_X result, of_long (ntrials result));
     (sum_X2 result, of_long (ntrials result));
     (spec_var result, of_long (ntrials result));
     (div (spec_var result) (of_long (ntrials result)),
      mul (spec_mean result) (spec_mean result))].
Proof. reflexivity. Qed.

Lemma SFdiv_by_zero x : sf_not_finite (SF64div x (S754_zero false)).
Proof. by destruct x as [[]|[]| |[] m e]. Qed.

Lemma SFltb_not_finite_nonneg x y :
  sf_not_finite x → sf_nonneg x → SFltb x y = false.
Proof. by destruct x as [[]|[]| |[] m e], y as [[]|[]| |[] m' e']. Qed.

(** C8, as the code has it: with [ntrials > 0] and [sum_X = 0] the last
    division of [is_converged], [varEst / (EX*EX)], has the divisor +0 and is
    evaluated all the same: there is no guard and no fallback.  Its IEEE
    quotient is NaN or an infinity, and unless the variance estimate is
    negative the relative-error test fails, so that the result is 1 exactly
    when [ntrials > maxtrials] (compared as [double]s). *)
Theorem is_converged_zero_mean (param : mc_param_t float) (result : mc_result_t float) :
  0 < ntrials result <= LONG_MAX →
  PrimFloat.eqb (sum_X result) zero = true →
  ∃ varEst,
    last (is_converged_divisions param result) = Some (varEst, PrimFloat.zero)
    ∧ divides_by_zero param result
    ∧ sf_not_finite (Prim2SF (div varEst PrimFloat.zero))
    ∧ (ltb (spec_var result) zero = false →
       (is_converged param result = 1 ↔
          ltb (D := float) (of_long (maxtrials param)) (of_long (ntrials result)) = true)).
Proof.
  intros Hn Hsum.
  pose proof (zero_mean_square result Hn Hsum) as Hsq.
  exists (div (spec_var result) (of_long (ntrials result))).
  split; [|split; [|split]].
  - rewrite is_converged_divisions_eq, Hsq. done.
  - unfold divides_by_zero. rewrite is_converged_divisions_eq, Hsq.
    do 3 apply Exists_cons_tl. by apply Exists_cons_hd.
  - change (@div float _) with PrimFloat.div.
    rewrite (div_spec _ PrimFloat.zero), Prim2SF_zero. apply SFdiv_by_zero.
  - intros Hvar.
    pose proof (relative_error_nonneg result Hn Hvar) as Hq.
    unfold is_converged. fold (spec_mean result). fold (spec_var result).
    rewrite Hsq in *.
    set (q := div (div (spec_var result) _) _) in *.
    assert (Hlt : ltb q (mul (rtol param) (rtol param)) = false).
    { change (@ltb float _) with PrimFloat.ltb.
      rewrite FloatAxioms.ltb_spec. apply SFltb_not_finite_nonneg; [|done].
      subst q. change (@div float _) with PrimFloat.div.
      rewrite (div_spec _ PrimFloat.zero), Prim2SF_zero. apply SFdiv_by_zero. }
    rewrite Hlt.
    destruct (ltb (D := float) (of_long (maxtrials param)) (of_long (ntrials result)));
    repeat split; intros ?; done.
Qed.

(** C8, as the claim has it, fails: it is not so that [is_converged] keeps
    from dividing by zero whenever [ntrials > 0] and [sum_X = 0].  On four
    trials that sum to zero ([result_zero_mean]) the divisor [EX*EX] is
    zero. *)
Lemma is_converged_zero_mean_unguarded :
  ¬ (∀ (param : mc_param_t float) (result : mc_result_t float),
       0 < ntrials result → PrimFloat.eqb (sum_X result) zero = true →
       ¬ divides_by_zero param result).
Proof.
  intros Hguard. apply (Hguard param_default result_zero_mean); [done|done|].
  unfold divides_by_zero. do 3 apply Exists_cons_tl. by apply Exists_cons_hd.
Qed.

(** For a budget and a count below 2^53 the test made in [double] is the
    test on the integers. *)
Theorem is_converged_budget_small (param : mc_param_t float) (result : mc_result_t float) :
  0 <= maxtrials param < 2 ^ 53 → 0 <= ntrials result < 2 ^ 53 →
  (is_converged param result = 1 ↔
     ltb (div (div (spec_var result) (of_long (ntrials result)))
              (mul (spec_mean result) (spec_mean result)))
         (mul (rtol param) (rtol param)) = true
     ∨ maxtrials param < ntrials result).
Proof.
  intros Hm Hn. unfold is_converged.
  fold (spec_mean result). fold (spec_var result).
  rewrite (ltb_of_long_small _ _ Hm Hn).
  destruct (ltb (div _ _) _).
  - split; [by left|done].
  - destruct (Z.ltb_spec (maxtrials param) (ntrials result)).
    + split; [by right|done].
    + split; [done|]. intros [?|?]; [done|lia].
Qed.

(** Whatever the budget and the count, a result of 1 means that the
    relative-error test succeeded or that the count exceeds the budget. *)
Theorem is_converged_budget_sound (param : mc_param_t float) (result : mc_result_t float) :
  maxtrials param <= LONG_MAX → 0 < ntrials result <= LONG_MAX →
  is_converged param result = 1 →
  ltb (div (div (spec_var result) (of_long (ntrials result)))
           (mul (spec_mean result) (spec_mean result)))
      (mul (rtol param) (rtol param)) = true
  ∨ maxtrials param < ntrials result.
Proof.
  intros Hm Hn. unfold is_converged.
  fold (spec_mean result). fold (spec_var result).
  destruct (ltb (div _ _) _); [by left|].
  pose proof (of_long_ltb_lt (maxtrials param) (ntrials result) Hm Hn).
  destruct (ltb (D := float) (of_long (maxtrials param)) (of_long (ntrials result)));
    [right; auto|done].
Qed.

(** Above 2^53 the budget test can miss a count that exceeds the budget by
    less than the rounding of the conversion: 2^53 + 1 converts to 2^53. *)
Remark is_converged_budget_rounds :
  is_converged (Build_mc_param 1 0%float (2 ^ 53) 5000)
               (Build_mc_result 2%float 1.125%float (2 ^ 53 + 1)) = 0.
Proof. reflexivity. Qed.

(** Rounding can make the variance estimate negative on actual samples:
    three trials that each draw 0.1 give an estimate below zero, on which
    the test with a tolerance of zero succeeds at once. *)
Remark is_converged_equal_draws :
  let tenth := 0x1.999999999999ap-4%float in
  let result := Build_mc_result (sum_D [tenth; tenth; tenth])
                  (sum_D ((λ X, mul X X) <$> [tenth; tenth; tenth])) 3 in
  ltb (spec_var result) zero = true ∧ is_converged param_rtol_zero result = 1.
Proof. split; reflexivity. Qed.

(** *** Addition in binary64 is commutative *)

Lemma SFadd_comm x y : SF64add x y = SF64add y x.
Proof.
  destruct x as [[]|[]| |sx mx ex], y as [[]|[]| |sy my ey]; try reflexivity.
  unfold SF64add, SFadd. by rewrite (Z.min_comm ex ey), Z.add_comm.
Qed.

(** Of the two laws that make the order of the merges immaterial, binary64
    addition has commutativity; it lacks associativity. *)
Lemma add_comm_binary64 (x y : float) : add x y = add y x.
Proof.
  apply Prim2SF_inj. change (@add float _) with PrimFloat.add.
  rewrite !add_spec. apply SFadd_comm.
Qed.

Remark add_assoc_binary64_fails :
  add (add 0.5%float 0x1p-54%float) 0x1p-54%float ≠
  add 0.5%float (add 0x1p-54%float 0x1p-54%float).
Proof.
  intros Heq. apply (f_equal (λ x, PrimFloat.eqb x 0.5%float)) in Heq.
  vm_compute in Heq. discriminate.
Qed.

(** Two values added to 0 in either order give the same sum. *)
Lemma sum_D_two_binary64 (x y : float) : sum_D [x; y] = sum_D [y; x].
Proof.
  unfold sum_D. simpl. apply Prim2SF_inj.
  change (@add float _) with PrimFloat.add. rewrite !add_spec.
  change (Prim2SF zero) with (S754_zero false).
  destruct (Prim2SF x) as [[]|[]| |sx mx ex], (Prim2SF y) as [[]|[]| |sy my ey];
    try reflexivity.
  apply SFadd_comm.
Qed.

(** In binary64 two batches merged into a freshly initialised [*result]
    give the same store in either order. *)
Theorem merges_two_binary64 (h : gmap loc (mc_result_t float)) result b1 b2 :
  is_Some (h !! result) →
  Forall (λ p : loc, p ≠ result ∧ is_Some (h !! p)) [b1; b2] →
  is_Some (exec (mc_result_init result;; merges result [b1; b2]) h)
  ∧ exec (mc_result_init result;; merges result [b1; b2]) h =
    exec (mc_result_init result;; merges result [b2; b1]) h.
Proof.
  intros Hr Hbs.
  apply Forall_cons in Hbs as [[Hne1 [v1 Hv1]] Hbs].
  apply Forall_cons in Hbs as [[Hne2 [v2 Hv2]] _].
  assert (H12 : Forall2 (batch_is h result) [b1; b2] [v1; v2])
    by (repeat constructor; done).
  assert (H21 : Forall2 (batch_is h result) [b2; b1] [v2; v1])
    by (repeat constructor; done).
  unfold exec.
  rewrite (merges_from_init h result _ _ Hr H12), (merges_from_init h result _ _ Hr H21).
  simpl. split; [by eexists|].
  rewrite (sum_D_two_binary64 (sum_X v1)), (sum_D_two_binary64 (sum_X2 v1)).
  do 4 f_equal. lia.
Qed.

End Binary64.

(** The batches at 2 and 3 of the sample store, merged in either order in
    binary64. *)
Lemma merges_two_binary64_witness :
  is_Some (exec (mc_result_init 1%positive;;
                 merges 1%positive [2%positive; 3%positive]) demo_store)
  ∧ exec (mc_result_init 1%positive;; merges 1%positive [2%positive; 3%positive])
         demo_store =
    exec (mc_result_init 1%positive;; merges 1%positive [3%positive; 2%positive])
         demo_store.
Proof.
  apply (Binary64.merges_two_binary64 demo_store 1%positive 2%positive 3%positive).
  - eexists. reflexivity.
  - repeat constructor; try done; eexists; reflexivity.
Defined.

(** C5 on four trials with mean 0.5 and a tolerance of zero. *)
Lemma is_converged_zero_rtol_witness :
  (is_converged param_rtol_zero result_half_mean = 1 ↔
     ltb (D := float) (of_long (maxtrials param_rtol_zero))
         (of_long (ntrials result_half_mean)) = true)
  ∧ (is_converged param_rtol_zero result_half_mean = 0 ↔
     ltb (D := float) (of_long (maxtrials param_rtol_zero))
         (of_long (ntrials result_half_mean)) = false)
  ∧ (0 <= maxtrials param_rtol_zero < 2 ^ 53 → ntrials result_half_mean < 2 ^ 53 →
     (is_converged param_rtol_zero result_half_mean = 1 ↔
        maxtrials param_rtol_zero < ntrials result_half_mean))
  ∧ (maxtrials param_rtol_zero <= LONG_MAX →
     is_converged param_rtol_zero result_half_mean = 1 →
     maxtrials param_rtol_zero < ntrials result_half_mean).
Proof.
  apply (Binary64.is_converged_zero_rtol param_rtol_zero result_half_mean).
  - reflexivity.
  - unfold LONG_MAX. simpl. lia.
  - reflexivity.
Defined.

(** C8 on four trials that sum to zero. *)
Lemma is_converged_zero_mean_witness :
  ∃ varEst,
    last (is_converged_divisions param_default result_zero_mean) =
      Some (varEst, PrimFloat.zero)
    ∧ divides_by_zero param_default result_zero_mean
    ∧ sf_not_finite (Prim2SF (div varEst PrimFloat.zero))
    ∧ (ltb (spec_var result_zero_mean) zero = false →
       (is_converged param_default result_zero_mean = 1 ↔
          ltb (D := float) (of_long (maxtrials param_default))
              (of_long (ntrials result_zero_mean)) = true)).
Proof.
  apply (Binary64.is_converged_zero_mean param_default result_zero_mean).
  - unfold LONG_MAX. simpl. lia.
  - reflexivity.
Defined.

(** The budget test on the sample data, whose counts are far below 2^53. *)
Lemma is_converged_budget_small_witness :
  is_converged param_default result_half_mean = 1 ↔
    ltb (div (div (spec_var result_half_mean) (of_long (ntrials result_half_mean)))
             (mul (spec_mean result_half_mean) (spec_mean result_half_mean)))
        (mul (rtol param_default) (rtol param_default)) = true
    ∨ maxtrials param_default < ntrials result_half_mean.
Proof.
  apply (Binary64.is_converged_budget_small param_default result_half_mean);
    simpl; lia.
Defined.

(** Four trials of value 0.5 pass the relative-error test. *)
Lemma is_converged_budget_sound_witness :
  ltb (div (div (spec_var result_constant) (of_long (ntrials result_constant)))
           (mul (spec_mean result_constant) (spec_mean result_constant)))
      (mul (rtol param_default) (rtol param_default)) = true
  ∨ maxtrials param_default < ntrials result_constant.
Proof.
  apply (Binary64.is_converged_budget_sound param_default result_constant).
  - unfold LONG_MAX. simpl. lia.
  - unfold LONG_MAX. simpl. lia.
  - reflexivity.
Defined.

(** ** More on the command line *)

Section CommandLineMore.

Context {D : Type} `{Arith D}.
Context (atoi atol : string → Z) (atof : string → D) (MAX_MC_THREADS : Z).

Local Abbreviation opt_step := (process_opt atoi atol atof MAX_MC_THREADS).
Local Abbreviation opt_loop := (getopt_loop atoi atol atof MAX_MC_THREADS).

Lemma process_opt_refused g err nthreads param :
  refused atoi atol atof MAX_MC_THREADS g err →
  opt_step g nthreads param = inr err.
Proof.
  unfold refused, process_opt.
  intros [(Hc & Hr & ->)|[(Hc & Hr & ->)|[(Hc & Hr & ->)|[(Hc & Hr & ->)|(Hc & ->)]]]];
    rewrite Hc; simpl.
  - destruct (Z.leb_spec (atoi (optarg g)) 0); [done|].
    destruct (Z.ltb_spec MAX_MC_THREADS (atoi (optarg g))); [done|lia].
  - by rewrite Hr.
  - destruct (Z.ltb_spec (atol (optarg g)) 1); [done|lia].
  - destruct (Z.ltb_spec (atoi (optarg g)) 1); [done|lia].
  - by destruct (_ || _).
Qed.

(** Every check of [process_args] is fatal: once the loop reaches a return
    of [getopt] that fails the check of its [case], [process_args] ends in
    [exit(-1)] and never returns, whatever follows.  The text written is the
    one of that check, unless an earlier option was refused first. *)
Theorem process_args_refused pre g post err optind argc param :
  Forall (λ g', opt_c g' ≠ -1) pre →
  refused atoi atol atof MAX_MC_THREADS g err →
  process_args atoi atol atof MAX_MC_THREADS (pre ++ g :: post) optind argc param =
    Exited (-1)
      match getopt_loop atoi atol atof MAX_MC_THREADS pre 0 (mc_param_init param) with
      | inl _ => err
      | inr err' => err'
      end.
Proof.
  intros Hpre Href. unfold process_args.
  rewrite (getopt_loop_app atoi atol atof MAX_MC_THREADS pre (g :: post) _ _ Hpre).
  destruct (opt_loop pre 0 (mc_param_init param)) as [[n' p']|err']; [|done].
  assert (Hc : opt_c g ≠ -1).
  { destruct Href as [(Hc & _)|[(Hc & _)|[(Hc & _)|[(Hc & _)|(Hc & _)]]]];
      rewrite Hc; by vm_compute. }
  simpl. destruct (Z.eqb_spec (opt_c g) (-1)); [done|].
  by rewrite (process_opt_refused g err n' p' Href).
Qed.

(** One return of [getopt] keeps the parameters valid, or is refused. *)
Lemma process_opt_valid g nthreads param :
  valid_args MAX_MC_THREADS nthreads param →
  match opt_step g nthreads param with
  | inl (nthreads', param') => valid_args MAX_MC_THREADS nthreads' param'
  | inr _ => True
  end.
Proof.
  intros (Hn & Hr & Hm & Hb). unfold process_opt, valid_args.
  repeat match goal with
  | |- context [if ltb ?x ?y then _ else _] => destruct (ltb x y) eqn:?
  | |- context [if ?a <=? ?b then _ else _] => destruct (Z.leb_spec a b)
  | |- context [if ?a <? ?b then _ else _] => destruct (Z.ltb_spec a b)
  | |- context [if ?a =? ?b then _ else _] => destruct (Z.eqb_spec a b)
  | |- context [if ?b then _ else _] => destruct b eqn:?
  end; simpl in *; try done; repeat split; try done; try lia.
Qed.

Lemma getopt_loop_valid calls : ∀ nthreads param,
  valid_args MAX_MC_THREADS nthreads param →
  match opt_loop calls nthreads param with
  | inl (nthreads', param') => valid_args MAX_MC_THREADS nthreads' param'
  | inr _ => True
  end.
Proof.
  induction calls as [|g calls IH]; intros nthreads param Hv; simpl; [done|].
  destruct (opt_c g =? -1); [done|].
  pose proof (process_opt_valid g nthreads param Hv) as Hstep.
  destruct (opt_step g nthreads param) as [[n' p']|err]; [|done].
  by apply IH.
Qed.

(** Whatever the command line, when [process_args] returns, what it returns
    has passed every check: the thread count is 0 (no [-p]) or within
    [1, MAX_MC_THREADS], the tolerance is not below zero, the budget and the
    batch size are at least 1, and no non-option argument is left.  The
    default tolerance must itself not be below zero, as 1e-4 is. *)
Theorem process_args_returned_valid calls optind argc param nthreads param' :
  ltb (D := D) lit_1em4 zero = false →
  process_args atoi atol atof MAX_MC_THREADS calls optind argc param =
    Returned nthreads param' →
  valid_args MAX_MC_THREADS nthreads param' ∧ argc <= optind.
Proof.
  intros Hlit. unfold process_args.
  pose proof (getopt_loop_valid calls 0 (mc_param_init param)) as Hloop.
  destruct (opt_loop calls 0 (mc_param_init param)) as [[n' p']|err]; [|done].
  destruct (Z.ltb_spec optind argc); [done|].
  intros [= <- <-]. split; [|done]. apply Hloop.
  unfold valid_args. simpl. repeat split; first [done | lia | by left].
Qed.

(** The state the loop leaves: for each option the value of its last
    occurrence, and the value on entry when it does not occur. *)
Lemma getopt_loop_last calls : ∀ nthreads param nthreads' param',
  Forall (λ g, opt_c g ≠ -1) calls →
  opt_loop calls nthreads param = inl (nthreads', param') →
  nthreads' = from_option atoi nthreads (last_optarg (chr "p") calls)
  ∧ rtol param' = from_option atof (rtol param) (last_optarg (chr "t") calls)
  ∧ maxtrials param' = from_option atol (maxtrials param) (last_optarg (chr "n") calls)
  ∧ nbatch param' = from_option atoi (nbatch param) (last_optarg (chr "b") calls)
  ∧ verbose param' = from_option atoi (verbose param) (last_optarg (chr "v") calls).
Proof.
  induction calls as [|g calls IH]; intros nthreads param nthreads' param' Hcalls Hloop.
  - simpl in *. by injection Hloop as <- <-.
  - apply Forall_cons in Hcalls as [Hg Hcalls]. simpl in Hloop.
    destruct (Z.eqb_spec (opt_c g) (-1)); [done|].
    destruct (opt_step g nthreads param) as [[n1 p1]|err] eqn:Hstep; [|done].
    destruct (IH _ _ _ _ Hcalls Hloop) as (-> & -> & -> & -> & ->).
    clear IH Hloop. simpl.
    destruct (last_optarg (chr "p") calls), (last_optarg (chr "t") calls),
      (last_optarg (chr "n") calls), (last_optarg (chr "b") calls),
      (last_optarg (chr "v") calls); simpl;
      revert Hstep; unfold process_opt;
      repeat match goal with
      | |- context [if ltb ?x ?y then _ else _] => destruct (ltb x y) eqn:?
      | |- context [if ?a =? ?b then _ else _] => destruct (Z.eqb_spec a b)
      | |- context [if ?b then _ else _] => destruct b eqn:?
      end; simpl; intros [= <- <-]; simpl; try done;
      repeat match goal with Heq : opt_c g = _ |- _ => rewrite Heq in *; clear Heq end;
      done.
Qed.

(** When [process_args] returns, each value it returns is the one of the
    last occurrence of its option on the command line, and the default of
    [mc_param_init] (0 for the thread count) when the option does not
    occur: a later option overrides an earlier one. *)
Theorem process_args_last_option calls optind argc param nthreads param' :
  Forall (λ g, opt_c g ≠ -1) calls →
  process_args atoi atol atof MAX_MC_THREADS calls optind argc param =
    Returned nthreads param' →
  nthreads = from_option atoi 0 (last_optarg (chr "p") calls)
  ∧ rtol param' = from_option atof lit_1em4 (last_optarg (chr "t") calls)
  ∧ maxtrials param' = from_option atol 10000000 (last_optarg (chr "n") calls)
  ∧ nbatch param' = from_option atoi 5000 (last_optarg (chr "b") calls)
  ∧ verbose param' = from_option atoi 1 (last_optarg (chr "v") calls).
Proof.
  intros Hcalls. unfold process_args.
  destruct (opt_loop calls 0 (mc_param_init param)) as [[n' p']|err] eqn:Hloop; [|done].
  destruct (optind <? argc); [done|]. intros [= <- <-].
  apply (getopt_loop_last calls _ _ _ _ Hcalls Hloop).
Qed.

End CommandLineMore.

(** ** No other way to fail *)

Section CommandLineAccepted.

Context {D : Type} `{Arith D}.
Context (atoi atol : string → Z) (atof : string → D) (MAX_MC_THREADS : Z).

(** The [switch] writes an error for refused returns only. *)
Lemma process_opt_inr g nthreads param err :
  process_opt atoi atol atof MAX_MC_THREADS g nthreads param = inr err →
  refused atoi atol atof MAX_MC_THREADS g err.
Proof.
  unfold process_opt, refused.
  destruct (Z.eqb_spec (opt_c g) (chr "p")) as [Hp|_].
  { destruct (Z.leb_spec (atoi (optarg g)) 0), (Z.ltb_spec MAX_MC_THREADS (atoi (optarg g)));
      simpl; intros [= <-]; left; repeat split; first [done | lia]. }
  destruct (Z.eqb_spec (opt_c g) (chr "t")) as [Ht|_].
  { simpl. destruct (ltb (atof (optarg g)) zero) eqn:Hlt; intros [= <-].
    right. left. done. }
  destruct (Z.eqb_spec (opt_c g) (chr "n")) as [Hn|_].
  { simpl. destruct (Z.ltb_spec (atol (optarg g)) 1); intros [= <-].
    right. right. left. done. }
  destruct (Z.eqb_spec (opt_c g) (chr "b")) as [Hb|_].
  { simpl. destruct (Z.ltb_spec (atoi (optarg g)) 1); intros [= <-].
    do 3 right. left. done. }
  destruct (Z.eqb_spec (opt_c g) (chr "v")) as [Hv|_]; [done|].
  destruct (Z.eqb_spec (opt_c g) (chr "?")) as [Hq|_]; [|done].
  intros Herr. do 4 right. split; [done|].
  destruct (_ || _); by injection Herr.
Qed.

Lemma getopt_loop_accepted calls : ∀ nthreads param,
  Forall (λ g, ∀ err, ¬ refused atoi atol atof MAX_MC_THREADS g err) calls →
  ∃ nthreads' param',
    getopt_loop atoi atol atof MAX_MC_THREADS calls nthreads param =
      inl (nthreads', param').
Proof.
  induction calls as [|g calls IH]; intros nthreads param Hcalls; simpl.
  - by eexists _, _.
  - apply Forall_cons in Hcalls as [Hg Hcalls].
    destruct (opt_c g =? -1); [by eexists _, _|].
    destruct (process_opt atoi atol atof MAX_MC_THREADS g nthreads param)
      as [[n' p']|err] eqn:Hstep.
    + by apply IH.
    + by destruct (Hg err (process_opt_inr g nthreads param err Hstep)).
Qed.

(** The checks are the only way to fail: on a command line none of whose
    options is refused, [process_args] returns when no non-option argument
    is left ([optind >= argc]), and otherwise ends in [exit(-1)] with the
    text about non-option arguments. *)
Theorem process_args_accepted calls optind argc param :
  Forall (λ g, ∀ err, ¬ refused atoi atol atof MAX_MC_THREADS g err) calls →
  (argc <= optind →
   ∃ nthreads param',
     process_args atoi atol atof MAX_MC_THREADS calls optind argc param =
       Returned nthreads param')
  ∧ (optind < argc →
     process_args atoi atol atof MAX_MC_THREADS calls optind argc param =
       Exited (-1) msg_nonoption).
Proof.
  intros Hcalls. unfold process_args.
  destruct (getopt_loop_accepted calls 0 (mc_param_init param) Hcalls)
    as (n' & p' & ->).
  destruct (Z.ltb_spec optind argc); split; intros; first [lia | done | by eexists _, _].
Qed.

End CommandLineAccepted.

(** ** Batches and rounds *)

Section Rounds.

Context {D : Type} `{Arith D} {MT : Type} (genrand : MT → D * MT).
Implicit Types (h : gmap loc (mc_result_t D)) (mt : MT).

Lemma run_trials_store mt nbatch result h :
  is_Some (h !! result) →
  run_trials genrand mt nbatch result h =
    Some (snd (draws genrand (Z.to_nat nbatch) mt),
          <[result := batch_of (fst (draws genrand (Z.to_nat nbatch) mt)) nbatch]> h).
Proof.
  intros [r Hr]. unfold run_trials.
  rewrite (run_trials_loop_draws genrand (Z.to_nat nbatch)) by (f_equal; lia).
  run_store. by rewrite !insert_insert_eq.
Qed.

(** A batch size of zero or less: [run_trials] draws nothing, leaves the
    stream as it is, and stores sums of 0 with the batch size itself as the
    count, negative if the batch size is. *)
Theorem run_trials_nonpositive mt nbatch result h :
  nbatch <= 0 → is_Some (h !! result) →
  run_trials genrand mt nbatch result h =
    Some (mt, <[result := Build_mc_result zero zero nbatch]> h).
Proof.
  intros Hn Hr. rewrite (run_trials_store mt nbatch result h Hr).
  by replace (Z.to_nat nbatch) with 0%nat by lia.
Qed.

Lemma batch_round_store mt nbatch result batch h r :
  result ≠ batch → h !! result = Some r → is_Some (h !! batch) →
  batch_round genrand result batch mt nbatch h =
    Some (snd (draws genrand (Z.to_nat nbatch) mt),
          <[result := merged r (batch_of (fst (draws genrand (Z.to_nat nbatch) mt)) nbatch)]>
            (<[batch := batch_of (fst (draws genrand (Z.to_nat nbatch) mt)) nbatch]> h)).
Proof.
  intros Hne Hr Hb. unfold batch_round.
  rewrite bind_run, (run_trials_store mt nbatch batch h Hb).
  rewrite bind_run.
  erewrite mc_result_update_distinct;
    [done|done|by rewrite lookup_insert_ne|apply lookup_insert_eq].
Qed.

Lemma draws_app n1 : ∀ n2 mt,
  draws genrand (n1 + n2) mt =
    (fst (draws genrand n1 mt) ++ fst (draws genrand n2 (snd (draws genrand n1 mt))),
     snd (draws genrand n2 (snd (draws genrand n1 mt)))).
Proof.
  induction n1 as [|n1 IH]; intros n2 mt; simpl.
  - by destruct (draws genrand n2 mt).
  - destruct (genrand mt) as [X mt1]. rewrite IH.
    by destruct (draws genrand n1 mt1).
Qed.

Section ExactSums.

Hypothesis add_assoc : ∀ x y z : D, add x (add y z) = add (add x y) z.
Hypothesis add_0_l : ∀ x : D, add zero x = x.
Hypothesis add_0_r : ∀ x : D, add x zero = x.

Lemma fold_add_from (xs : list D) : ∀ a,
  fold_left add xs a = add a (fold_left add xs zero).
Proof.
  induction xs as [|x xs IH]; intros a; simpl.
  - by rewrite add_0_r.
  - rewrite IH, (IH (add zero x)), add_0_l. by rewrite add_assoc.
Qed.

Lemma sum_D_app (xs ys : list D) : sum_D (xs ++ ys) = add (sum_D xs) (sum_D ys).
Proof. unfold sum_D. rewrite fold_left_app. apply fold_add_from. Qed.

End ExactSums.

(** Two rounds of [n1] and [n2] trials against one round of [n1 + n2], each
    into a freshly initialised [*result] through the same [*batch]: both
    leave the stream in the same state and the same count in [*result], in
    every arithmetic; they leave the same sums too when the addition of
    [double] is associative with 0 neutral, as in exact arithmetic.  The
    size of the batches then does not show in the result. *)
Theorem batch_round_split mt n1 n2 result batch h :
  0 <= n1 → 0 <= n2 → result ≠ batch →
  is_Some (h !! result) → is_Some (h !! batch) →
  ∃ mt' h2 h1 r2 r1,
    (mc_result_init result;;
     mt1 ← batch_round genrand result batch mt n1;
     batch_round genrand result batch mt1 n2) h = Some (mt', h2)
    ∧ (mc_result_init result;;
       batch_round genrand result batch mt (n1 + n2)) h = Some (mt', h1)
    ∧ h2 !! result = Some r2 ∧ h1 !! result = Some r1
    ∧ ntrials r2 = ntrials r1
    ∧ ((∀ x y z : D, add x (add y z) = add (add x y) z) →
       (∀ x : D, add zero x = x) → (∀ x : D, add x zero = x) →
       r2 = r1).
Proof.
  intros Hn1 Hn2 Hne [r Hr] [b Hb].
  set (d1 := draws genrand (Z.to_nat n1) mt).
  set (d2 := draws genrand (Z.to_nat n2) (snd d1)).
  assert (Hd : draws genrand (Z.to_nat (n1 + n2)) mt = (fst d1 ++ fst d2, snd d2)).
  { rewrite Z2Nat.inj_add by lia. apply draws_app. }
  set (h0 := <[result := Build_mc_result zero zero 0]> h).
  assert (Hr0 : h0 !! result = Some (Build_mc_result zero zero 0))
    by apply lookup_insert_eq.
  assert (Hb0 : is_Some (h0 !! batch)).
  { unfold h0. rewrite lookup_insert_ne by done. by eexists. }
  set (r1 := merged (Build_mc_result zero zero 0) (batch_of (fst d1) n1)).
  set (h1 := <[result := r1]> (<[batch := batch_of (fst d1) n1]> h0)).
  assert (Hr1 : h1 !! result = Some r1) by apply lookup_insert_eq.
  assert (Hb1 : is_Some (h1 !! batch)).
  { unfold h1. rewrite lookup_insert_ne by done. rewrite lookup_insert_eq. by eexists. }
  eexists _, _, _, _, _.
  split; [|split; [|split; [|split; [|split]]]].
  - rewrite bind_run, (mc_result_init_run h result r Hr). fold h0.
    rewrite bind_run, (batch_round_store mt n1 result batch h0 _ Hne Hr0 Hb0).
    fold d1 r1 h1.
    rewrite (batch_round_store (snd d1) n2 result batch h1 _ Hne Hr1 Hb1).
    fold d2. reflexivity.
  - rewrite bind_run, (mc_result_init_run h result r Hr). fold h0.
    rewrite (batch_round_store mt (n1 + n2) result batch h0 _ Hne Hr0 Hb0).
    rewrite Hd. reflexivity.
  - apply lookup_insert_eq.
  - apply lookup_insert_eq.
  - simpl. unfold long_add. rewrite long_wrap_add_l. f_equal; lia.
  - intros Ha H0l H0r. unfold r1, merged, batch_of. simpl.
    rewrite fmap_app, !(sum_D_app Ha H0l H0r), !H0l.
    f_equal. unfold long_add. rewrite long_wrap_add_l. f_equal; lia.
Qed.

End Rounds.

Import Binary64.

(** ** More on the convergence test in binary64 *)

(** Rewrite the binary64 operations of the goal into their specification. *)
Ltac to_spec :=
  repeat first
    [ rewrite div_spec | rewrite mul_spec | rewrite sub_spec
    | rewrite add_spec | rewrite sqrt_spec ].

Section ConvergenceMore.

Implicit Types (param : mc_param_t float) (result : mc_result_t float).

(** With a count of zero every intermediate value is NaN or an infinity,
    and the relative error is NaN whatever the sums are. *)
Lemma relative_error_no_trials (x x2 : spec_float) :
  let z := S754_zero false in
  let EX := SF64div x z in
  SF64div (SF64div (SF64sub (SF64div x2 z) (SF64mul EX EX)) z) (SF64mul EX EX)
  = S754_nan.
Proof. by destruct x as [[]|[]| |[] m e], x2 as [[]|[]| |[] m2 e2]. Qed.

Lemma variance_no_trials (x x2 : spec_float) :
  let z := S754_zero false in
  let EX := SF64div x z in
  SF64sqrt (SF64div (SF64sub (SF64div x2 z) (SF64mul EX EX)) z) = S754_nan.
Proof. by destruct x as [[]|[]| |[] m e], x2 as [[]|[]| |[] m2 e2]. Qed.

Lemma Prim2SF_of_long_0 : Prim2SF (of_long 0) = S754_zero false.
Proof. reflexivity. Qed.

(** [is_converged] on a result that holds no trial, such as the one
    [mc_result_init] leaves: the relative error is NaN whatever the sums
    are, so the test fails and only the budget test is left; with a budget
    that is not negative the result is 0. *)
Theorem is_converged_no_trials param result :
  ntrials result = 0 →
  (is_converged param result = 1 ↔
     ltb (D := float) (of_long (maxtrials param)) zero = true)
  ∧ (0 <= maxtrials param <= LONG_MAX → is_converged param result = 0).
Proof.
  intros Hn. unfold is_converged. rewrite Hn.
  assert (Hlt : ltb (div (div (sub (div (sum_X2 result) (of_long 0))
                                  (mul (div (sum_X result) (of_long 0))
                                       (div (sum_X result) (of_long 0))))
                             (of_long 0))
                        (mul (div (sum_X result) (of_long 0))
                             (div (sum_X result) (of_long 0))))
                   (mul (rtol param) (rtol param)) = false).
  { change (@ltb float _) with PrimFloat.ltb. change (@div float _) with PrimFloat.div.
    change (@mul float _) with PrimFloat.mul. change (@sub float _) with PrimFloat.sub.
    rewrite FloatAxioms.ltb_spec. to_spec. rewrite Prim2SF_of_long_0.
    by rewrite relative_error_no_trials. }
  rewrite Hlt. fold (zero (D := float)).
  split.
  - by destruct (ltb (D := float) (of_long (maxtrials param)) zero).
  - intros Hm.
    assert (Hb : ltb (D := float) (of_long (maxtrials param)) zero = false).
    { change (@ltb float _) with PrimFloat.ltb. apply ltb_zero_false.
      destruct (Z.eq_dec (maxtrials param) 0) as [->|Hne]; [done|].
      pose proof (of_long_positive_sign (maxtrials param) ltac:(lia)) as Hs.
      by destruct (Prim2SF (of_long (maxtrials param))). }
    by rewrite Hb.
Qed.

Lemma SFmul_opp x : SF64mul (SFopp x) (SFopp x) = SF64mul x x.
Proof. by destruct x as [[]|[]| |[] m e]. Qed.

(** The test reads the tolerance through its square only: a tolerance and
    its opposite give the same result. *)
Theorem is_converged_rtol_sign param result :
  is_converged (with_rtol (- rtol param)%float param) result =
  is_converged param result.
Proof.
  unfold is_converged, with_rtol. simpl rtol. simpl maxtrials.
  replace (mul (- rtol param)%float (- rtol param)%float)
    with (mul (rtol param) (rtol param)); [done|].
  apply Prim2SF_inj. change (@mul float _) with PrimFloat.mul.
  by rewrite !mul_spec, opp_spec, SFmul_opp.
Qed.

(** A tolerance so small that its square rounds to zero acts as a tolerance
    of zero: with a count above 0 and a variance estimate that is not
    negative the relative-error test fails, and the result is the budget
    test. *)
Theorem is_converged_rtol_underflow param result :
  PrimFloat.eqb (mul (rtol param) (rtol param)) zero = true →
  0 < ntrials result <= LONG_MAX →
  ltb (spec_var result) zero = false →
  (is_converged param result = 1 ↔
     ltb (D := float) (of_long (maxtrials param)) (of_long (ntrials result)) = true)
  ∧ (maxtrials param <= LONG_MAX →
     is_converged param result = 1 → maxtrials param < ntrials result).
Proof.
  intros Hrtol Hn Hvar.
  pose proof (relative_error_nonneg result Hn Hvar) as Hq.
  unfold is_converged. fold (spec_mean result). fold (spec_var result).
  set (q := div (div (spec_var result) _) _) in *.
  assert (Hlt : ltb q (mul (rtol param) (rtol param)) = false).
  { change (@ltb float _) with PrimFloat.ltb.
    rewrite FloatAxioms.ltb_spec.
    apply eqb_zero_true in Hrtol.
    destruct (Prim2SF (mul (rtol param) (rtol param))); try done.
    by destruct (Prim2SF q) as [[]|[]| |[] m e]. }
  rewrite Hlt. split.
  - by destruct (ltb (D := float) (of_long (maxtrials param)) (of_long (ntrials result))).
  - intros Hm. pose proof (of_long_ltb_lt (maxtrials param) (ntrials result) Hm Hn).
    destruct (ltb (D := float) (of_long (maxtrials param)) (of_long (ntrials result)));
      [auto|done].
Qed.

(** *** Reporting *)

Lemma SFsqrt_nonneg x : sf_nonneg (SF64sqrt x).
Proof.
  destruct x as [[]|[]| |[] m e]; try done.
  unfold SF64sqrt, SFsqrt.
  destruct (SFsqrt_core_binary prec emax (Z.pos m) e) as [[mz ez] lz].
  pose proof (binary_round_aux_sign mz ez lz) as Hs.
  by destruct (binary_round_aux prec emax false mz ez lz).
Qed.

Lemma SFsqrt_negative x : SFltb x (S754_zero false) = true → SF64sqrt x = S754_nan.
Proof. by destruct x as [[]|[]| |[] m e]. Qed.

(** What [print_results] passes to [printf]: the mean [sum_X / ntrials], a
    standard error, and the count.  The standard error is never below zero;
    it is NaN when the estimate of the variance of the mean is below zero.
    For a result that holds no trial the standard error is NaN and the mean
    is NaN or an infinity. *)
Theorem print_results_args result :
  ∃ stdX,
    print_results result =
      Build_printf_call ("%g (%g) from %ld trials" ++ nl)%string
        [Arg_double (spec_mean result); Arg_double stdX; Arg_long (ntrials result)]
    ∧ ltb stdX zero = false
    ∧ (ltb (div (spec_var result) (of_long (ntrials result))) zero = true →
       Prim2SF stdX = S754_nan)
    ∧ (ntrials result = 0 →
       Prim2SF stdX = S754_nan ∧ sf_not_finite (Prim2SF (spec_mean result))).
Proof.
  eexists. split; [reflexivity|]. fold (spec_mean result). fold (spec_var result).
  split; [|split].
  - change (@ltb float _) with PrimFloat.ltb. apply ltb_zero_false.
    rewrite sqrt_spec. apply SFsqrt_nonneg.
  - change (@ltb float _) with PrimFloat.ltb. rewrite FloatAxioms.ltb_spec, sqrt_spec.
    apply SFsqrt_negative.
  - intros Hn. unfold spec_var, spec_mean. rewrite Hn.
    change (@div float _) with PrimFloat.div.
    change (@mul float _) with PrimFloat.mul. change (@sub float _) with PrimFloat.sub.
    to_spec. rewrite Prim2SF_of_long_0. split; [apply variance_no_trials|].
    by destruct (Prim2SF (sum_X result)) as [[]|[]| |[] m e].
Qed.

End ConvergenceMore.

(** *** Division by one is exact *)

Lemma Prim2SF_of_long_1 :
  Prim2SF (of_long 1) = S754_finite false 4503599627370496 (-52).
Proof. reflexivity. Qed.

Lemma div_eucl_pow2 m s :
  0 <= s → Z.div_eucl (Z.pos m * 2 ^ (52 + s)) 4503599627370496 = (Z.pos m * 2 ^ s, 0).
Proof.
  intros Hs.
  assert (Heq : Z.pos m * 2 ^ (52 + s) = Z.pos m * 2 ^ s * 4503599627370496).
  { rewrite Z.pow_add_r by lia. change (2 ^ 52) with 4503599627370496. lia. }
  pose proof (Z.div_mod (Z.pos m * 2 ^ (52 + s)) 4503599627370496 ltac:(lia)) as Hdm.
  unfold Z.div, Z.modulo in Hdm.
  pose proof (Z.mod_mul (Z.pos m * 2 ^ s) 4503599627370496 ltac:(lia)) as Hmod.
  pose proof (Z.div_mul (Z.pos m * 2 ^ s) 4503599627370496 ltac:(lia)) as Hdiv.
  rewrite <- Heq in Hmod, Hdiv. unfold Z.div, Z.modulo in Hmod, Hdiv.
  destruct (Z.div_eucl (Z.pos m * 2 ^ (52 + s)) 4503599627370496) as [q r].
  by subst.
Qed.

(** Rounding leaves a mantissa that is already in the format as it is. *)
Lemma binary_round_aux_canonical s m e :
  Z.max (Z.log2 (Z.pos m) + 1 + e - 53) (-1074) = e → e <= 971 →
  binary_round_aux prec emax s (Z.pos m) e loc_Exact = S754_finite s m e.
Proof.
  intros Hc He.
  unfold binary_round_aux, shr_fexp, shr, fexp. simpl Zdigits2.
  rewrite digits2_pos_log2.
  replace (Z.max (Z.log2 (Z.pos m) + 1 + e - prec) (SpecFloat.emin prec emax) - e)
    with 0 by (unfold SpecFloat.emin, prec, emax; lia).
  simpl. rewrite digits2_pos_log2.
  replace (Z.max (Z.log2 (Z.pos m) + 1 + e - prec) (SpecFloat.emin prec emax) - e)
    with 0 by (unfold SpecFloat.emin, prec, emax; lia).
  simpl. destruct (Z.leb_spec e (emax - prec)) as [|Hgt]; [done|].
  unfold prec, emax in Hgt. lia.
Qed.

(** A mantissa of 54 digits that ends in 0 loses that digit exactly. *)
Lemma binary_round_aux_double s m e :
  Z.log2 (Z.pos m) = 52 → -1073 <= e <= 971 →
  binary_round_aux prec emax s (Z.pos m~0) (e - 1) loc_Exact = S754_finite s m e.
Proof.
  intros Hl He.
  assert (Hl2 : Z.log2 (Z.pos m~0) = 53).
  { rewrite Pos2Z.inj_xO, Z.log2_double by lia. lia. }
  unfold binary_round_aux, shr_fexp, shr, fexp. cbv beta iota delta [Zdigits2].
  rewrite digits2_pos_log2, Hl2.
  replace (Z.max (53 + 1 + (e - 1) - prec) (SpecFloat.emin prec emax) - (e - 1))
    with 1 by (unfold SpecFloat.emin, prec, emax; lia).
  simpl. rewrite digits2_pos_log2, Hl.
  replace (Z.max (52 + 1 + (e - 1 + 1) - prec) (SpecFloat.emin prec emax) - (e - 1 + 1))
    with 0 by (unfold SpecFloat.emin, prec, emax; lia).
  simpl. replace (e - 1 + 1) with e by lia.
  destruct (Z.leb_spec e (emax - prec)) as [|Hgt]; [done|].
  unfold prec, emax in Hgt. lia.
Qed.

Lemma SFdiv_one s m e :
  valid_binary (S754_finite s m e) = true →
  SF64div (S754_finite s m e) (S754_finite false 4503599627370496 (-52)) =
  S754_finite s m e.
Proof.
  unfold SpecFloat.valid_binary, bounded, canonical_mantissa, fexp.
  intros Hv. apply andb_prop in Hv as [Hc He].
  apply Z.eqb_eq in Hc. apply Z.leb_le in He.
  rewrite digits2_pos_log2 in Hc.
  unfold SpecFloat.emin, prec, emax in Hc, He.
  assert (Hl : 0 <= Z.log2 (Z.pos m)) by apply Z.log2_nonneg.
  unfold SF64div, SFdiv, SFdiv_core_binary, fexp.
  change (Zdigits2 4503599627370496) with 53. simpl Zdigits2.
  rewrite digits2_pos_log2. unfold SpecFloat.emin.
  replace (xorb s false) with s by (by destruct s).
  destruct (Z_le_gt_dec (-1073) e) as [Hn|Hs];
    [destruct (Z.eq_dec (Z.log2 (Z.pos m)) 52) as [H52|H52]|].
  - (* normal, above the least exponent *)
    replace (Z.min (Z.max (Z.log2 (Z.pos m) + 1 + e - (53 + -52) - prec)
                          (3 - emax - prec)) (e - -52))
      with (e - 1) by (unfold prec, emax; lia).
    replace (e - -52 - (e - 1)) with 53 by lia.
    rewrite Z.shiftl_mul_pow2 by lia.
    change 53 with (52 + 1) at 1. rewrite (div_eucl_pow2 m 1) by lia.
    change (new_location 4503599627370496 0) with loc_Exact.
    replace (Z.pos m * 2 ^ 1) with (Z.pos m~0) by lia.
    apply binary_round_aux_double; lia.
  - lia.
  - replace (Z.min (Z.max (Z.log2 (Z.pos m) + 1 + e - (53 + -52) - prec)
                          (3 - emax - prec)) (e - -52))
      with e by (unfold prec, emax; lia).
    replace (e - -52 - e) with 52 by lia.
    rewrite Z.shiftl_mul_pow2 by lia.
    change 52 with (52 + 0) at 1. rewrite (div_eucl_pow2 m 0) by lia.
    change (new_location 4503599627370496 0) with loc_Exact.
    replace (Z.pos m * 2 ^ 0) with (Z.pos m) by lia.
    apply binary_round_aux_canonical; lia.
Qed.

(** ** A single trial *)

Section SingleTrial.

Context {MT : Type} (genrand : MT → float * MT).

Lemma add_zero_finite (x : float) s m e :
  Prim2SF x = S754_finite s m e → add zero x = x.
Proof.
  intros Hx. apply Prim2SF_inj. change (@add float _) with PrimFloat.add.
  rewrite add_spec. change (Prim2SF zero) with (S754_zero false). by rewrite Hx.
Qed.

Lemma div_one_finite (x : float) s m e :
  Prim2SF x = S754_finite s m e → div x (of_long 1) = x.
Proof.
  intros Hx. apply Prim2SF_inj. change (@div float _) with PrimFloat.div.
  rewrite div_spec, Prim2SF_of_long_1, Hx. apply SFdiv_one.
  rewrite <- Hx. apply Prim2SF_valid.
Qed.

Lemma sub_self_finite (x : float) s m e :
  Prim2SF x = S754_finite s m e → sub x x = PrimFloat.zero.
Proof.
  intros Hx. apply Prim2SF_inj. change (@sub float _) with PrimFloat.sub.
  rewrite sub_spec, Hx. unfold SF64sub, SFsub. by rewrite Z.sub_diag.
Qed.

Lemma zero_div_finite (y : float) m e :
  Prim2SF y = S754_finite false m e → div PrimFloat.zero y = PrimFloat.zero.
Proof.
  intros Hy. apply Prim2SF_inj. change (@div float _) with PrimFloat.div.
  by rewrite div_spec, Hy.
Qed.

(** A value whose square is a positive finite number is itself finite and
    not zero. *)
Lemma square_finite (x : float) :
  ltb zero (mul x x) = true → ltb (mul x x) infinity = true →
  (∃ s m e, Prim2SF x = S754_finite s m e)
  ∧ ∃ m e, Prim2SF (mul x x) = S754_finite false m e.
Proof.
  change (@ltb float _) with PrimFloat.ltb. change (@mul float _) with PrimFloat.mul.
  rewrite !FloatAxioms.ltb_spec, mul_spec.
  change (Prim2SF zero) with (S754_zero false).
  change (Prim2SF infinity) with (S754_infinity false).
  intros H0 Hinf. split.
  - destruct (Prim2SF x) as [[]|[]| |s m e]; try done. by eexists _, _, _.
  - destruct (SF64mul (Prim2SF x) (Prim2SF x)) as [[]|[]| |[] m e]; try done.
    by eexists _, _.
Qed.

(** The result of one trial that drew [X] passes the relative-error test for
    every tolerance whose square is above zero. *)
Lemma is_converged_one_trial (param : mc_param_t float) (X : float) :
  ltb zero (mul X X) = true → ltb (mul X X) infinity = true →
  ltb zero (mul (rtol param) (rtol param)) = true →
  is_converged param (merged (Build_mc_result zero zero 0) (batch_of [X] 1)) = 1.
Proof.
  intros H0 Hinf Hrtol.
  destruct (square_finite X H0 Hinf) as [(s & m & e & HX) (mp & ep & HP)].
  unfold merged, batch_of, sum_D, is_converged.
  cbn [sum_X sum_X2 ntrials fold_left fmap list_fmap].
  rewrite !(add_zero_finite X s m e HX), !(add_zero_finite (mul X X) false mp ep HP).
  change (long_add 0 1) with 1.
  rewrite (div_one_finite X s m e HX), (div_one_finite (mul X X) false mp ep HP).
  rewrite (sub_self_finite (mul X X) false mp ep HP).
  rewrite (zero_div_finite (of_long 1) _ _ Prim2SF_of_long_1).
  rewrite (zero_div_finite (mul X X) mp ep HP).
  change PrimFloat.zero with (zero (D := float)). by rewrite Hrtol.
Qed.

(** One round of a single trial into a freshly initialised [*result]: if the
    value drawn has a square that is finite and above zero, [is_converged]
    returns 1 on the result for every tolerance whose square is above zero,
    whatever the budget: the variance estimate of one sample is 0. *)
Theorem is_converged_single_trial (param : mc_param_t float) mt result batch
    (h : gmap loc (mc_result_t float)) :
  ltb zero (mul (fst (genrand mt)) (fst (genrand mt))) = true →
  ltb (mul (fst (genrand mt)) (fst (genrand mt))) infinity = true →
  ltb zero (mul (rtol param) (rtol param)) = true →
  result ≠ batch → is_Some (h !! result) → is_Some (h !! batch) →
  ∃ h' r,
    (mc_result_init result;; batch_round genrand result batch mt 1) h =
      Some (snd (genrand mt), h')
    ∧ h' !! result = Some r
    ∧ ntrials r = 1
    ∧ is_converged param r = 1.
Proof.
  intros H0 Hinf Hrtol Hne [r Hr] [b Hb].
  assert (Hd : draws genrand (Z.to_nat 1) mt = ([fst (genrand mt)], snd (genrand mt))).
  { simpl. by destruct (genrand mt). }
  exists (<[result := merged (Build_mc_result zero zero 0) (batch_of [fst (genrand mt)] 1)]>
            (<[batch := batch_of [fst (genrand mt)] 1]>
               (<[result := Build_mc_result zero zero 0]> h))).
  exists (merged (Build_mc_result zero zero 0) (batch_of [fst (genrand mt)] 1)).
  split; [|split; [|split]].
  - rewrite bind_run, (mc_result_init_run h result r Hr).
    rewrite (batch_round_store genrand mt 1 result batch _
               (Build_mc_result zero zero 0) Hne).
    + by rewrite Hd.
    + apply lookup_insert_eq.
    + rewrite lookup_insert_ne by done. by eexists.
  - apply lookup_insert_eq.
  - reflexivity.
  - by apply is_converged_one_trial.
Qed.

End SingleTrial.

(** ** The sum of squares is never below zero *)

Section Squares.

Context {MT : Type} (genrand : MT → float * MT).

Lemma sf_positive_sign_nonneg x : sf_positive_sign x → sf_nonneg x.
Proof. by destruct x. Qed.

Lemma SFadd_nonneg x y : sf_nonneg x → sf_nonneg y → sf_nonneg (SF64add x y).
Proof.
  destruct x as [[]|[]| |[] mx ex], y as [[]|[]| |[] my ey]; try done.
  intros _ _. unfold SF64add, SFadd. simpl cond_Zopp.
  destruct (shl_align mx ex _) as [mx' ex'].
  destruct (shl_align my ey _) as [my' ey']. simpl.
  unfold binary_round. destruct (shl_align _ _ _) as [mz ez].
  apply sf_positive_sign_nonneg, binary_round_aux_sign.
Qed.

Lemma fold_add_nonneg (xs : list float) : ∀ acc : float,
  sf_nonneg (Prim2SF acc) → Forall (λ x, sf_nonneg (Prim2SF x)) xs →
  sf_nonneg (Prim2SF (fold_left add xs acc)).
Proof.
  induction xs as [|x xs IH]; intros acc Hacc Hxs; simpl; [done|].
  apply Forall_cons in Hxs as [Hx Hxs]. apply IH; [|done].
  change (@add float _) with PrimFloat.add. rewrite add_spec. by apply SFadd_nonneg.
Qed.

Lemma sum_squares_nonneg (Xs : list float) :
  sf_nonneg (Prim2SF (sum_D ((λ X, mul X X) <$> Xs))).
Proof.
  apply fold_add_nonneg; [done|].
  apply Forall_fmap, Forall_forall. intros X _. simpl.
  change (@mul float _) with PrimFloat.mul. rewrite mul_spec.
  apply sf_positive_sign_nonneg, SFmul_self.
Qed.

(** Whatever the generator returns (values outside [0,1], infinities and
    NaN included) and whatever the batch size, the sum of squares that
    [run_trials] stores is never below zero; the count stored is the batch
    size. *)
Theorem run_trials_squares_nonneg mt nbatch result
    (h : gmap loc (mc_result_t float)) :
  is_Some (h !! result) →
  ∃ mt' b,
    run_trials genrand mt nbatch result h = Some (mt', <[result := b]> h)
    ∧ ntrials b = nbatch
    ∧ ltb (sum_X2 b) zero = false.
Proof.
  intros Hr. eexists _, _. split; [by apply run_trials_store|]. split; [done|].
  change (@ltb float _) with PrimFloat.ltb. apply ltb_zero_false.
  apply sum_squares_nonneg.
Qed.

(** [mc_result_update] keeps it so: when neither sum of squares is below
    zero before the merge, the one in [*result] is not below zero after it,
    whether or not the two pointers name the same object. *)
Theorem mc_result_update_squares_nonneg (h : gmap loc (mc_result_t float))
    result batch r b :
  h !! result = Some r → h !! batch = Some b →
  ltb (sum_X2 r) zero = false → ltb (sum_X2 b) zero = false →
  ∃ h' r',
    mc_result_update result batch h = Some ((), h')
    ∧ h' !! result = Some r'
    ∧ ltb (sum_X2 r') zero = false.
Proof.
  intros Hr Hb Hr2 Hb2. exists (<[result := merged r b]> h), (merged r b).
  split; [|split].
  - destruct (decide (result = batch)) as [<-|Hne].
    + assert (b = r) as -> by congruence. clear Hb.
      unfold mc_result_update. run_store. by rewrite !insert_insert_eq.
    + by apply mc_result_update_distinct.
  - apply lookup_insert_eq.
  - revert Hr2 Hb2. change (@ltb float _) with PrimFloat.ltb.
    rewrite !ltb_zero_false. simpl.
    change (@add float _) with PrimFloat.add. rewrite add_spec. apply SFadd_nonneg.
Qed.

End Squares.

(** ** A lower budget stops no later *)

Lemma binary_normalize_finite p :
  Z.pos p < 2 ^ 64 →
  ∃ m e, binary_normalize prec emax (Z.pos p) 0 false = S754_finite false m e.
Proof.
  intros Hp. destruct (Z.lt_ge_cases (Z.pos p) (2 ^ 53)) as [Hs|Hl].
  - destruct (binary_normalize_small p Hs) as (m & -> & _). by eexists _, _.
  - rewrite (binary_normalize_large p) by lia.
    destruct (_ <? _); by eexists _, _.
Qed.

(** The order of binary64 on positive finite values: what is below the
    smaller of two values is below the larger. *)
Lemma SFltb_le_lt m1 e1 m2 e2 z :
  SFltb (S754_finite false m2 e2) (S754_finite false m1 e1) = false →
  SFltb (S754_finite false m2 e2) z = true →
  SFltb (S754_finite false m1 e1) z = true.
Proof.
  unfold SFltb, SFcompare.
  destruct z as [[]|[]| |[] mz ez]; try done.
  change (Pos.compare_cont Eq m2 m1) with (Z.pos m2 ?= Z.pos m1).
  change (Pos.compare_cont Eq m2 mz) with (Z.pos m2 ?= Z.pos mz).
  change (Pos.compare_cont Eq m1 mz) with (Z.pos m1 ?= Z.pos mz).
  destruct (Z.compare_spec e2 e1), (Z.compare_spec e2 ez), (Z.compare_spec e1 ez);
    try done; try lia;
    destruct (Z.compare_spec (Z.pos m2) (Z.pos m1)),
      (Z.compare_spec (Z.pos m2) (Z.pos mz)),
      (Z.compare_spec (Z.pos m1) (Z.pos mz)); try done; lia.
Qed.

Lemma of_long_ltb_mono (a b : Z) (n : float) :
  0 <= a <= b → b <= LONG_MAX →
  ltb (of_long b) n = true → ltb (of_long a) n = true.
Proof.
  intros Hab Hb. change (@ltb float _) with PrimFloat.ltb.
  rewrite !FloatAxioms.ltb_spec, !Prim2SF_of_long by lia.
  unfold LONG_MAX in Hb.
  destruct b as [|q|q]; [| |lia].
  { by replace a with 0 by lia. }
  destruct (binary_normalize_finite q) as (mq & eq & Hq); [lia|].
  destruct a as [|p|p]; [| |lia].
  - rewrite Hq. simpl. by destruct (Prim2SF n) as [[]|[]| |[] mz ez].
  - pose proof (SFltb_normalize_mono q p) as Hmono.
    destruct (binary_normalize_finite p) as (mp & ep & Hp); [lia|].
    rewrite Hq, Hp in *. apply SFltb_le_lt. apply Hmono. lia.
Qed.

(** Lowering the budget never turns a result of 1 into 0: with a budget
    [m'] between 0 and the budget of [param], [is_converged] returns 1
    wherever it does for [param], whatever the result holds.  The
    conversion of the budget to [double] keeps the order. *)
Theorem is_converged_budget_mono (param : mc_param_t float)
    (result : mc_result_t float) (m' : Z) :
  0 <= m' <= maxtrials param → maxtrials param <= LONG_MAX →
  is_converged param result = 1 →
  is_converged (with_maxtrials m' param) result = 1.
Proof.
  intros Hm' Hm. unfold is_converged, with_maxtrials. simpl rtol. simpl maxtrials.
  destruct (ltb (div _ _) _); [done|].
  destruct (ltb (of_long (maxtrials param)) _) eqn:Hlt; [|done].
  intros _. by rewrite (of_long_ltb_mono m' (maxtrials param) _ Hm' Hm Hlt).
Qed.

(** ** The convergence test against the specification *)

(** The order of binary64 on positive finite values: what is below a value
    is below every value that is not below that one. *)
Lemma SFltb_lt_le m1 e1 m2 e2 m3 e3 :
  SFltb (S754_finite false m1 e1) (S754_finite false m2 e2) = true →
  SFltb (S754_finite false m3 e3) (S754_finite false m2 e2) = false →
  SFltb (S754_finite false m1 e1) (S754_finite false m3 e3) = true.
Proof.
  unfold SFltb, SFcompare.
  change (Pos.compare_cont Eq m1 m2) with (Z.pos m1 ?= Z.pos m2).
  change (Pos.compare_cont Eq m3 m2) with (Z.pos m3 ?= Z.pos m2).
  change (Pos.compare_cont Eq m1 m3) with (Z.pos m1 ?= Z.pos m3).
  destruct (Z.compare_spec e1 e2), (Z.compare_spec e3 e2), (Z.compare_spec e1 e3);
    try done; try lia;
    destruct (Z.compare_spec (Z.pos m1) (Z.pos m2)),
      (Z.compare_spec (Z.pos m3) (Z.pos m2)),
      (Z.compare_spec (Z.pos m1) (Z.pos m3)); try done; lia.
Qed.

(** The largest count below 2^53 converts to less than every count from
    2^53 on does. *)
Lemma ltb_of_long_above (n : Z) :
  2 ^ 53 <= n <= LONG_MAX →
  ltb (D := float) (of_long (2 ^ 53 - 1)) (of_long n) = true.
Proof.
  intros Hn. change (@ltb float _) with PrimFloat.ltb.
  rewrite FloatAxioms.ltb_spec, !Prim2SF_of_long by (unfold LONG_MAX in *; lia).
  unfold LONG_MAX in Hn. destruct n as [|p|p]; try lia.
  pose proof (SFltb_normalize_mono p (2 ^ 53)%positive ltac:(lia)) as Hmono.
  destruct (binary_normalize_finite p) as (mp & ep & Hp); [lia|].
  rewrite Hp in *.
  replace (binary_normalize prec emax (2 ^ 53 - 1) 0 false)
    with (S754_finite false 9007199254740991 0) by (by vm_compute).
  replace (binary_normalize prec emax (Z.pos (2 ^ 53)) 0 false)
    with (S754_finite false 4503599627370496 1) in Hmono by (by vm_compute).
  apply (SFltb_lt_le _ _ 4503599627370496 1); [by vm_compute|exact Hmono].
Qed.

(** When the budget or the count is below 2^53, the comparison of the two
    after conversion is their comparison as integers. *)
Lemma ltb_of_long_budget (m n : Z) :
  0 <= m <= LONG_MAX → 0 < n <= LONG_MAX → m < 2 ^ 53 ∨ n < 2 ^ 53 →
  ltb (D := float) (of_long m) (of_long n) = (m <? n).
Proof.
  intros Hm Hn Hsmall.
  destruct (ltb (D := float) (of_long m) (of_long n)) eqn:Hlt.
  - symmetry. apply Z.ltb_lt. apply of_long_ltb_lt; [lia|done|done].
  - destruct (Z.ltb_spec m n) as [Hmn|]; [|done].
    rewrite <- Hlt. clear Hlt.
    destruct (Z.lt_ge_cases n (2 ^ 53)) as [Hn'|Hn'].
    + rewrite ltb_of_long_small by lia. by apply Z.ltb_lt.
    + apply (of_long_ltb_mono m (2 ^ 53 - 1)); [lia|unfold LONG_MAX; lia|].
      apply ltb_of_long_above. lia.
Qed.

(** C1, bounded: for a budget in [0, LONG_MAX] and a count in (0, LONG_MAX],
    one of the two below 2^53, [is_converged(param, result)] returns 1
    exactly when the test of the spec holds: with [n = ntrials],
    [mean = sum_X / n], [mean_sq = sum_X2 / n], [var = mean_sq - mean^2] and
    [var_of_mean = var / n], either [var_of_mean / mean^2 < rtol^2], in the
    operations of [double], or [n > maxtrials] on the counts; it returns 0
    otherwise.  The code compares the count and the budget after converting
    both to [double], which is the comparison of the counts under this
    bound. *)
Theorem is_converged_spec (param : mc_param_t float) (result : mc_result_t float) :
  0 <= maxtrials param <= LONG_MAX → 0 < ntrials result <= LONG_MAX →
  maxtrials param < 2 ^ 53 ∨ ntrials result < 2 ^ 53 →
  (is_converged param result = 1 ↔ spec_converged param result = true)
  ∧ (is_converged param result = 0 ↔ spec_converged param result = false).
Proof.
  intros Hm Hn Hsmall.
  unfold is_converged, spec_converged, spec_var, spec_mean.
  rewrite (ltb_of_long_budget _ _ Hm Hn Hsmall).
  destruct (ltb (div _ _) _); simpl; [done|].
  by destruct (_ <? _).
Qed.

(** C1, as the claim has it, fails: for a count above 0 it is not so that
    [is_converged] returns 1 exactly when the test of the spec holds.  With
    a budget of 2^53 and a count of 2^53 + 1 ([rtol = 0], variance above
    zero) the count exceeds the budget, but both convert to the [double]
    2^53 and [is_converged] returns 0. *)
Theorem is_converged_spec_unbounded :
  ¬ (∀ (param : mc_param_t float) (result : mc_result_t float),
       0 < ntrials result →
       (is_converged param result = 1 ↔ spec_converged param result = true)).
Proof.
  intros Hspec.
  destruct (Hspec (Build_mc_param 1 0%float (2 ^ 53) 5000)
                  (Build_mc_result 2%float 1.125%float (2 ^ 53 + 1)))
    as [_ Hback]; [done|].
  specialize (Hback eq_refl). by vm_compute in Hback.
Qed.

(** ** The order of the merges in binary64 *)



(** ** A tolerance of zero on actual samples *)

(** C5, as the claim has it, fails: a result aggregated from actual sample
    batches need not have a variance estimate that is not below zero, and
    with [rtol = 0] [is_converged] can return 1 below the budget.  One batch
    of two trials that draw 3841254155/2^32 and 3841254156/2^32, both in
    [0,1), merged into a freshly initialised result: [EX2 - EX*EX] rounds
    below zero and [is_converged] returns 1 at the count 2 under a budget
    of 10000000. *)
Theorem is_converged_zero_rtol_sampled :
  ¬ (∀ (genrand : Z → float * Z) (mt nbatch : Z) (param : mc_param_t float)
       (h h' : gmap loc (mc_result_t float)) (result batch : loc) (mt' : Z)
       (r : mc_result_t float),
       0 < nbatch →
       Forall (λ X, PrimFloat.leb 0 X && PrimFloat.ltb X 1 = true)
              (fst (draws genrand (Z.to_nat nbatch) mt)) →
       (mc_result_init result;; batch_round genrand result batch mt nbatch) h =
         Some (mt', h') →
       h' !! result = Some r →
       PrimFloat.eqb (rtol param) zero = true →
       (is_converged param r = 1 ↔ maxtrials param < ntrials r)).
Proof.
  intros Hclaim.
  assert (Hr : demo_store !! 1%positive = Some (Build_mc_result 7%float 7%float 7))
    by done.
  eassert (Hrun : (mc_result_init 1%positive;;
                  batch_round gen_grid 1%positive 2%positive 3841254155 2) demo_store
                 = Some _).
  { rewrite bind_run, (mc_result_init_run demo_store 1%positive _ Hr).
    rewrite (batch_round_store gen_grid 3841254155 2 1%positive 2%positive _
               (Build_mc_result zero zero 0));
      [reflexivity|done|apply lookup_insert_eq|].
    rewrite lookup_insert_ne by done. by eexists. }
  destruct (Hclaim gen_grid 3841254155 2 param_rtol_zero demo_store _
              1%positive 2%positive _ _ ltac:(lia)
              ltac:(repeat constructor) Hrun (lookup_insert_eq _ _ _) eq_refl)
    as [Hbudget _].
  assert (Hlt : maxtrials param_rtol_zero < 2) by (apply Hbudget; by vm_compute).
  simpl in Hlt. lia.
Qed.

(** ** A command line without [-p] *)

Section WithoutP.

Context {D : Type} `{Arith D}.
Context (atoi atol : string → Z) (atof : string → D) (MAX_MC_THREADS : Z).

(** C10: when no return of [getopt] is the option [-p], the range check of
    the thread count never runs.  On a command line none of whose options
    is refused and with no non-option argument left, [process_args] returns
    0 as the worker count, without an error, although 0 is outside
    [1..MAX_MC_THREADS].  Whenever it returns, it returns 0; and when it
    ends in [exit] instead (another option refused, or a non-option
    argument), the text written is never the one of the thread-count
    check. *)
Theorem process_args_without_p calls optind argc param :
  Forall (λ g, opt_c g ≠ chr "p") calls →
  (Forall (λ g, ∀ err, ¬ refused atoi atol atof MAX_MC_THREADS g err) calls →
   argc <= optind →
   ∃ param',
     process_args atoi atol atof MAX_MC_THREADS calls optind argc param =
       Returned 0 param')
  ∧ (∀ nthreads param',
       process_args atoi atol atof MAX_MC_THREADS calls optind argc param =
         Returned nthreads param' →
       nthreads = 0)
  ∧ (∀ status err,
       process_args atoi atol atof MAX_MC_THREADS calls optind argc param =
         Exited status err →
       err ≠ msg_nthreads MAX_MC_THREADS).
Proof.
  intros Hcalls. unfold process_args.
  pose proof (getopt_loop_no_p atoi atol atof MAX_MC_THREADS calls 0
                (mc_param_init param) Hcalls) as Hloop.
  split; [|split].
  - intros Hok Hargs.
    destruct (getopt_loop_accepted atoi atol atof MAX_MC_THREADS calls 0
                (mc_param_init param) Hok) as (n' & p' & Heq).
    rewrite Heq in *. subst n'.
    destruct (Z.ltb_spec optind argc); [lia|]. by eexists.
  - intros nthreads param'.
    destruct (getopt_loop atoi atol atof MAX_MC_THREADS calls 0 (mc_param_init param))
      as [[n' p']|err]; [|done].
    destruct (optind <? argc); [done|]. by intros [= <- _].
  - intros status err.
    destruct (getopt_loop atoi atol atof MAX_MC_THREADS calls 0 (mc_param_init param))
      as [[n' p']|err']; [|by intros [= _ <-]].
    destruct (optind <? argc); [|done]. intros [= _ <-].
    apply msg_nthreads_distinct. left. set_solver.
Qed.

End WithoutP.

(** ** Sample inputs for the properties above *)

(** The command line [-n 12 -t -1 -p 3]: the tolerance is refused, and the
    [-p 3] after it is never read. *)
Lemma process_args_refused_witness :
  process_args atoi_dec atoi_dec atof_int 240
    ([opt "n" "12"] ++ opt "t" "-1" :: [opt "p" "3"]) 7 7 param_default =
    Exited (-1)
      match getopt_loop atoi_dec atoi_dec atof_int 240 [opt "n" "12"] 0
              (mc_param_init param_default) with
      | inl _ => msg_rtol
      | inr err' => err'
      end.
Proof.
  apply (process_args_refused atoi_dec atoi_dec atof_int 240 [opt "n" "12"]
           (opt "t" "-1") [opt "p" "3"] msg_rtol 7 7 param_default).
  - repeat constructor. vm_compute. discriminate.
  - right. left. repeat split; reflexivity.
Defined.

(** The command line [-n 12 -p 3] is accepted, with valid values. *)
Lemma process_args_returned_valid_witness :
  valid_args 240 3 (Build_mc_param 1 0x1.a36e2eb1c432dp-14%float 12 5000) ∧ 5 <= 5.
Proof.
  apply (process_args_returned_valid atoi_dec atoi_dec atof_int 240
           [opt "n" "12"; opt "p" "3"] 5 5 param_default 3
           (Build_mc_param 1 0x1.a36e2eb1c432dp-14%float 12 5000));
    reflexivity.
Defined.

(** The command line [-n 12 -b 7 -n 40]: the budget is 40. *)
Lemma process_args_last_option_witness :
  3 = from_option atoi_dec 0
        (last_optarg (chr "p") [opt "n" "12"; opt "p" "3"; opt "n" "40"])
  ∧ rtol (Build_mc_param 1 0x1.a36e2eb1c432dp-14%float 40 5000) =
      from_option atof_int lit_1em4
        (last_optarg (chr "t") [opt "n" "12"; opt "p" "3"; opt "n" "40"])
  ∧ maxtrials (Build_mc_param 1 0x1.a36e2eb1c432dp-14%float 40 5000) =
      from_option atoi_dec 10000000
        (last_optarg (chr "n") [opt "n" "12"; opt "p" "3"; opt "n" "40"])
  ∧ nbatch (Build_mc_param 1 0x1.a36e2eb1c432dp-14%float 40 5000) =
      from_option atoi_dec 5000
        (last_optarg (chr "b") [opt "n" "12"; opt "p" "3"; opt "n" "40"])
  ∧ verbose (Build_mc_param 1 0x1.a36e2eb1c432dp-14%float 40 5000) =
      from_option atoi_dec 1
        (last_optarg (chr "v") [opt "n" "12"; opt "p" "3"; opt "n" "40"]).
Proof.
  apply (process_args_last_option atoi_dec atoi_dec atof_int 240
           [opt "n" "12"; opt "p" "3"; opt "n" "40"] 7 7 param_default 3
           (Build_mc_param 1 0x1.a36e2eb1c432dp-14%float 40 5000)).
  - repeat constructor; vm_compute; discriminate.
  - reflexivity.
Defined.

(** A batch size of zero on the sample store. *)
Lemma run_trials_nonpositive_witness :
  run_trials (lcg (D := float)) 12345 0 2%positive demo_store =
    Some (12345, <[2%positive := Build_mc_result zero zero 0]> demo_store).
Proof.
  apply (run_trials_nonpositive (lcg (D := float)) 12345 0 2%positive demo_store).
  - lia.
  - eexists. reflexivity.
Defined.

(** Rounds of 2 and 3 trials against one round of 5 in exact arithmetic. *)
Lemma batch_round_split_witness :
  (∀ x y z : Qc, add x (add y z) = add (add x y) z)
  ∧ (∀ x : Qc, add zero x = x)
  ∧ (∀ x : Qc, add x zero = x)
  ∧ ∃ mt' h2 h1 r2 r1,
      (mc_result_init 1%positive;;
       mt1 ← batch_round (lcg (D := Qc)) 1%positive 2%positive 12345 2;
       batch_round lcg 1%positive 2%positive mt1 3) demo_store_exact = Some (mt', h2)
      ∧ (mc_result_init 1%positive;;
         batch_round (lcg (D := Qc)) 1%positive 2%positive 12345 (2 + 3))
          demo_store_exact = Some (mt', h1)
      ∧ h2 !! 1%positive = Some r2 ∧ h1 !! 1%positive = Some r1
      ∧ ntrials r2 = ntrials r1
      ∧ ((∀ x y z : Qc, add x (add y z) = add (add x y) z) →
         (∀ x : Qc, add zero x = x) → (∀ x : Qc, add x zero = x) →
         r2 = r1).
Proof.
  split; [exact Qcplus_assoc|]. split; [exact Qcplus_0_l|]. split; [exact Qcplus_0_r|].
  apply (batch_round_split (lcg (D := Qc)) 12345 2 3 1%positive 2%positive
           demo_store_exact).
  - lia.
  - lia.
  - done.
  - eexists. reflexivity.
  - eexists. reflexivity.
Defined.

(** A result that holds no trial, under the default parameters. *)
Lemma is_converged_no_trials_witness :
  (is_converged param_default result_no_trials = 1 ↔
     ltb (D := float) (of_long (maxtrials param_default)) zero = true)
  ∧ (0 <= maxtrials param_default <= LONG_MAX →
     is_converged param_default result_no_trials = 0).
Proof.
  apply (is_converged_no_trials param_default result_no_trials). reflexivity.
Defined.

(** A tolerance of 2^-700, whose square is below the least positive value,
    on four trials with mean 0.5. *)
Lemma is_converged_rtol_underflow_witness :
  (is_converged param_rtol_tiny result_half_mean = 1 ↔
     ltb (D := float) (of_long (maxtrials param_rtol_tiny))
         (of_long (ntrials result_half_mean)) = true)
  ∧ (maxtrials param_rtol_tiny <= LONG_MAX →
     is_converged param_rtol_tiny result_half_mean = 1 →
     maxtrials param_rtol_tiny < ntrials result_half_mean).
Proof.
  apply (is_converged_rtol_underflow param_rtol_tiny result_half_mean).
  - reflexivity.
  - unfold LONG_MAX. simpl. lia.
  - reflexivity.
Defined.

(** One trial drawn from the stand-in generator, under the default
    parameters. *)
Lemma is_converged_single_trial_witness :
  ∃ h' r,
    (mc_result_init 1%positive;;
     batch_round (lcg (D := float)) 1%positive 2%positive 12345 1) demo_store =
      Some (snd (lcg (D := float) 12345), h')
    ∧ h' !! 1%positive = Some r
    ∧ ntrials r = 1
    ∧ is_converged param_default r = 1.
Proof.
  apply (is_converged_single_trial (lcg (D := float)) param_default 12345
           1%positive 2%positive demo_store).
  - reflexivity.
  - reflexivity.
  - reflexivity.
  - done.
  - eexists. reflexivity.
  - eexists. reflexivity.
Defined.

(** Three trials drawn from the stand-in generator. *)
Lemma run_trials_squares_nonneg_witness :
  ∃ mt' b,
    run_trials (lcg (D := float)) 12345 3 2%positive demo_store =
      Some (mt', <[2%positive := b]> demo_store)
    ∧ ntrials b = 3
    ∧ ltb (sum_X2 b) zero = false.
Proof.
  apply (run_trials_squares_nonneg (lcg (D := float)) 12345 3 2%positive demo_store).
  eexists. reflexivity.
Defined.

(** The batch at 2 of the sample store merged into the shared result
    at 1. *)
Lemma mc_result_update_squares_nonneg_witness :
  ∃ h' r',
    mc_result_update 1%positive 2%positive demo_store = Some ((), h')
    ∧ h' !! 1%positive = Some r'
    ∧ ltb (sum_X2 r') zero = false.
Proof.
  apply (mc_result_update_squares_nonneg demo_store 1%positive 2%positive
           (Build_mc_result 7%float 7%float 7)
           (Build_mc_result 0.5%float 0.25%float 1));
    reflexivity.
Defined.

(** Four trials of value 0.5 under the default budget and under a budget
    of 100. *)
Lemma is_converged_budget_mono_witness :
  is_converged (with_maxtrials 100 param_default) result_constant = 1.
Proof.
  apply (is_converged_budget_mono param_default result_constant 100).
  - simpl. lia.
  - unfold LONG_MAX. simpl. lia.
  - reflexivity.
Defined.

(** The command line [-n 12 -p 3], with and without a further argument. *)
Lemma process_args_accepted_witness :
  (5 <= 5 →
   ∃ nthreads param',
     process_args atoi_dec atoi_dec atof_int 240 [opt "n" "12"; opt "p" "3"] 5 5
       param_default = Returned nthreads param')
  ∧ (5 < 5 →
     process_args atoi_dec atoi_dec atof_int 240 [opt "n" "12"; opt "p" "3"] 5 5
       param_default = Exited (-1) msg_nonoption).
Proof.
  apply (process_args_accepted atoi_dec atoi_dec atof_int 240
           [opt "n" "12"; opt "p" "3"] 5 5 param_default).
  repeat constructor;
    intros err [(Hc & Hr & _)|[(Hc & _)|[(Hc & Hr & _)|[(Hc & _)|(Hc & _)]]]];
    vm_compute in Hc; try discriminate; vm_compute in Hr; intuition discriminate.
Defined.

(** C1 on four trials with mean 0.5 under the default parameters. *)
Lemma is_converged_spec_witness :
  (is_converged param_default result_half_mean = 1 ↔
     spec_converged param_default result_half_mean = true)
  ∧ (is_converged param_default result_half_mean = 0 ↔
     spec_converged param_default result_half_mean = false).
Proof.
  apply (is_converged_spec param_default result_half_mean).
  - unfold LONG_MAX. simpl. lia.
  - unfold LONG_MAX. simpl. lia.
  - left. simpl. lia.
Defined.

(** C10 on the command line [-n 12]: the thread count returned is 0. *)
Lemma process_args_without_p_witness :
  (∃ param',
     process_args atoi_dec atoi_dec atof_int 240 [opt "n" "12"] 3 3 param_default =
       Returned 0 param')
  ∧ (∀ nthreads param',
       process_args atoi_dec atoi_dec atof_int 240 [opt "n" "12"] 3 3 param_default =
         Returned nthreads param' →
       nthreads = 0)
  ∧ (∀ status err,
       process_args atoi_dec atoi_dec atof_int 240 [opt "n" "12"] 3 3 param_default =
         Exited status err →
       err ≠ msg_nthreads 240).
Proof.
  destruct (process_args_without_p atoi_dec atoi_dec atof_int 240 [opt "n" "12"]
              3 3 param_default) as (Hreturns & Hzero & Htext).
  - repeat constructor. vm_compute. discriminate.
  - split; [|by split]. apply Hreturns; [|lia].
    repeat constructor.
    intros err [(Hc & _)|[(Hc & _)|[(_ & Hr & _)|[(Hc & _)|(Hc & _)]]]];
      vm_compute in *; discriminate.
Defined.
